(** * Terminal dialog of crush: geometry, input routing and lifecycle

    A shallow embedding of package [termdialog]
    (internal/tui/components/dialogs/termdialog) and the properties of its
    window-resize handler, its position and cursor mapping and its close
    protocol.

    Conventions of the embedding:
    - Go's [int] is the 64-bit signed integer of the supported targets; it is
    a [Z] and every arithmetic operation wraps around (module [GoInt]);
    - [float64] is IEEE 754 binary64, given by the Standard Library's
    executable specification [SpecFloat] at precision 53 (module
    [Float64]);
    - the embedded terminal ([*terminal.Terminal], package internal/terminal)
    is an interface the dialog is parametric in (module [terminal]); the
    methods of the dialog that call it run in a state monad over the
    terminal and the log of the calls made to it. *)

From Stdlib Require Import ZArith NArith List Bool Lia String Ascii.
From Stdlib Require Import Floats.SpecFloat.
Import ListNotations.
Open Scope Z_scope.

(** ** Go's [int] *)

Module GoInt.

Definition min_int : Z := - 2 ^ 63.
Definition max_int : Z := 2 ^ 63 - 1.

Definition in_range (z : Z) : Prop := min_int <= z <= max_int.

Definition in_rangeb (z : Z) : bool := (min_int <=? z) && (z <=? max_int).

(** Two's complement wrap-around of an exact result. *)
Definition wrap (z : Z) : Z := (z + 2 ^ 63) mod 2 ^ 64 - 2 ^ 63.

Definition add (a b : Z) : Z := wrap (a + b).
Definition sub (a b : Z) : Z := wrap (a - b).
(** Go's [/] on integers truncates toward zero. *)
Definition quot (a b : Z) : Z := wrap (Z.quot a b).

End GoInt.

(** ** Go's [float64] *)

Module Float64.

Definition prec : Z := 53.
Definition emax : Z := 1024.

Definition float64 : Type := spec_float.

(** [float64(x)] for an [int] x: round to nearest, ties to even. *)
Definition of_int (x : Z) : float64 := binary_normalize prec emax x 0 false.

Definition mul (x y : float64) : float64 := SFmul prec emax x y.

(** The constant [0.85] converted to [float64]:
    0x3FEB333333333333 = 7656119366529843 * 2^-53. *)
Definition c0_85 : float64 := S754_finite false 7656119366529843 (-53).

(** The integer part of a finite float (rounding toward zero). *)
Definition trunc (f : float64) : option Z :=
  match f with
  | S754_zero _ => Some 0
  | S754_finite s m e =>
      let v := if 0 <=? e then Zpos m * 2 ^ e else Zpos m / 2 ^ (- e) in
      Some (if s then - v else v)
  | S754_infinity _ | S754_nan => None
  end.

(** [int(f)]: the integer part when [int] can represent it.  Otherwise the
    language leaves the value to the implementation; amd64 gives the
    smallest [int], which is what is written here. *)
Definition to_int (f : float64) : Z :=
  match trunc f with
  | Some z => if GoInt.in_rangeb z then z else GoInt.min_int
  | None => GoInt.min_int
  end.

End Float64.

(** ** The embedded terminal (package [terminal]) *)

Module terminal.

(** Go's [error], by its message. *)
Definition error : Type := string.

(** [tea.Mouse], the payload shared by the four mouse messages, and
    [tea.MouseMsg]; they are declared with the terminal that receives them,
    their fields [X] and [Y] being also those of [tea.Cursor]. *)
Record Mouse : Type := mkMouse {
  X : Z;
  Y : Z;
  Button : Z;
  Mod : Z
}.

Inductive MouseMsg : Type :=
  | MouseClickMsg (m : Mouse)
  | MouseReleaseMsg (m : Mouse)
  | MouseWheelMsg (m : Mouse)
  | MouseMotionMsg (m : Mouse).

(** The methods of [*terminal.Terminal] that the dialog's resize, mouse,
    cursor and close paths call, over a terminal state [T].  [None] is the
    [nil] error. *)
Class Terminal (T : Type) : Type := {
  Started : T -> bool;
  Resize : Z -> Z -> T -> option error * T;
  Start : T -> option error * T;
  SendMouse : MouseMsg -> T -> T;
  CursorPosition : T -> Z * Z;
  Close : T -> option error * T
}.

(** A call made to the terminal, with the error it returned. *)
Inductive Call : Type :=
  | CallResize (width height : Z) (err : option error)
  | CallStart (err : option error)
  | CallSendMouse (ev : MouseMsg)
  | CallClose (err : option error).

Definition isStart (c : Call) : bool :=
  match c with CallStart _ => true | _ => false end.

Definition isStartOk (c : Call) : bool :=
  match c with CallStart None => true | _ => false end.


(** A log in which no call of Start, failed or not, follows a Start that
    succeeded. *)
Fixpoint startedOnce (log : list Call) : bool :=
  match log with
  | [] => true
  | CallStart None :: log => forallb (fun c => negb (isStart c)) log
  | _ :: log => startedOnce log
  end.

End terminal.

(** ** Commands ([tea.Cmd]) *)

Module tea.

(** The commands the dialog returns.  [nil] is [None] at the use sites. *)
#[warnings="-register-all"]
Inductive Cmd : Type :=
  | ReportError (err : terminal.error)   (* util.ReportError(err) *)
  | WaitCmd                              (* d.term.WaitCmd() *)
  | RefreshCmd                           (* d.term.RefreshCmd() *)
  | Batch (cmds : list Cmd)              (* tea.Batch(cmds...) *)
  | Emit (msg : string).                 (* util.CmdHandler(msg) *)

(** The commands a command hands to the runtime: itself, or the members
    of a batch. *)
Definition issued (c : option Cmd) : list Cmd :=
  match c with
  | None => []
  | Some (Batch cmds) => cmds
  | Some c => [c]
  end.

(** [tea.WindowSizeMsg]. *)
Record WindowSizeMsg : Type := mkWindowSizeMsg {
  Width : Z;
  Height : Z
}.

Inductive CursorShape : Type := CursorBlock | CursorUnderline | CursorBar.

(** [tea.Cursor]. *)
Record Cursor (color : Type) : Type := mkCursor {
  X : Z;
  Y : Z;
  Color : color;
  Shape : CursorShape;
  Blink : bool
}.
Arguments mkCursor {color}.
Arguments X {color}.
Arguments Y {color}.
Arguments Color {color}.
Arguments Shape {color}.
Arguments Blink {color}.

End tea.

(** ** The dialog (package [termdialog]) *)

Module termdialog.

(** headerHeight is the height of the dialog header (title + padding). *)
Definition headerHeight : Z := 2.

(** fullscreenWidthBreakpoint is the width below which the dialog goes
    fullscreen. *)
Definition fullscreenWidthBreakpoint : Z := 120.

(** State passing: a method of the dialog that calls the terminal is a
    function of the world [W] it runs in. *)
Definition M (W A : Type) : Type := W -> A * W.

Definition ret {W A : Type} (a : A) : M W A := fun w => (a, w).

Definition bind {W A B : Type} (c : M W A) (k : A -> M W B) : M W B :=
  fun w => let (a, w') := c w in k a w'.

Notation "'let*' x ':=' c 'in' k" := (bind c (fun x => k))
  (at level 10, x name, c at level 100, k at level 200).

Section Dialog.

Context {T : Type} {TT : terminal.Terminal T}.

(** The terminal the dialog owns ([d.term] points to it) and the calls made
    to it so far, oldest first. *)
Record World : Type := mkWorld {
  term : T;
  calls : list terminal.Call
}.

(** Config holds configuration for a terminal dialog.  [Term] is the
    terminal of the world. *)
Record Config : Type := mkConfig {
  ID : string;
  Title : string;
  LoadingMsg : string;
  OnClose : option (M World (option tea.Cmd))
}.

(** Dialog is a dialog that embeds a terminal application. *)
Record Dialog : Type := mkDialog {
  id : string;
  title : string;
  loadingMsg : string;
  onClose : option (M World (option tea.Cmd));
  wWidth : Z;
  wHeight : Z;
  width : Z;
  height : Z;
  fullscreen : bool
}.

(** New creates a new terminal dialog with the given configuration. *)
Definition New (cfg : Config) : Dialog :=
  let loadingMsg := LoadingMsg cfg in
  let loadingMsg :=
    if String.eqb loadingMsg EmptyString then "Starting..."%string
    else loadingMsg in
  {| id := ID cfg;
     title := Title cfg;
     loadingMsg := loadingMsg;
     onClose := OnClose cfg;
     wWidth := 0;
     wHeight := 0;
     width := 0;
     height := 0;
     fullscreen := false |}.

(** The calls of the dialog to its terminal.  Resize, Start, SendMouse and
    Close are appended to the log; the queries Started and CursorPosition
    are not. *)
Definition termStarted : M World bool :=
  fun w => (terminal.Started (term w), w).

Definition termResize (width height : Z) : M World (option terminal.error) :=
  fun w =>
    let (err, t) := terminal.Resize width height (term w) in
    (err, {| term := t;
             calls := calls w ++ [terminal.CallResize width height err] |}).

Definition termStart : M World (option terminal.error) :=
  fun w =>
    let (err, t) := terminal.Start (term w) in
    (err, {| term := t; calls := calls w ++ [terminal.CallStart err] |}).

Definition termSendMouse (ev : terminal.MouseMsg) : M World unit :=
  fun w =>
    (tt, {| term := terminal.SendMouse ev (term w);
            calls := calls w ++ [terminal.CallSendMouse ev] |}).

Definition termCursorPosition : M World (Z * Z) :=
  fun w => (terminal.CursorPosition (term w), w).

Definition termClose : M World (option terminal.error) :=
  fun w =>
    let (err, t) := terminal.Close (term w) in
    (err, {| term := t; calls := calls w ++ [terminal.CallClose err] |}).

(** [int(float64(n) * 0.85)] of handleResize. *)
Definition scale85 (n : Z) : Z :=
  Float64.to_int (Float64.mul (Float64.of_int n) Float64.c0_85).

Definition handleResize (msg : tea.WindowSizeMsg) (d : Dialog)
  : M World (Dialog * option tea.Cmd) :=
  let wWidth := tea.Width msg in
  let wHeight := tea.Height msg in
  (* Go fullscreen when window is below compact mode breakpoint. *)
  let fullscreen := tea.Width msg <? fullscreenWidthBreakpoint in
  let '(outerWidth, outerHeight) :=
    if fullscreen then (tea.Width msg, tea.Height msg)
    else
      (* Dialog takes up 85% of the screen to show it's embedded. *)
      let outerWidth := scale85 (tea.Width msg) in
      let outerHeight := scale85 (tea.Height msg) in
      (* Cap at reasonable maximums. *)
      let outerWidth :=
        if outerWidth >? GoInt.sub (tea.Width msg) 6
        then GoInt.sub (tea.Width msg) 6 else outerWidth in
      let outerHeight :=
        if outerHeight >? GoInt.sub (tea.Height msg) 4
        then GoInt.sub (tea.Height msg) 4 else outerHeight in
      (outerWidth, outerHeight) in
  (* Inner dimensions = outer - border (1 char each side = 2 total). *)
  let width := Z.max (GoInt.sub outerWidth 2) 40 in
  let height := Z.max (GoInt.sub outerHeight 2) 10 in
  let d := {| id := id d; title := title d; loadingMsg := loadingMsg d;
              onClose := onClose d;
              wWidth := wWidth; wHeight := wHeight;
              width := width; height := height;
              fullscreen := fullscreen |} in
  (* Terminal height excludes the header. *)
  let termHeight := Z.max (GoInt.sub height headerHeight) 5 in
  (* Start the terminal if not started. *)
  let* started := termStarted in
  if negb started && (width >? 0) && (termHeight >? 0) then
    let* err := termResize width termHeight in
    match err with
    | Some err => ret (d, Some (tea.ReportError err))
    | None =>
        let* err := termStart in
        match err with
        | Some err => ret (d, Some (tea.ReportError err))
        | None => ret (d, Some (tea.Batch [tea.WaitCmd; tea.RefreshCmd]))
        end
    end
  else
    (* Resize existing terminal. *)
    let* err := termResize width termHeight in
    match err with
    | Some err => ret (d, Some (tea.ReportError err))
    | None => ret (d, None)
    end.

Definition Position (d : Dialog) : Z * Z :=
  if fullscreen d then (0, 0)
  else
    let dialogWidth := GoInt.add (width d) 2 in
    let dialogHeight := GoInt.add (height d) 2 in
    let row := Z.max (GoInt.quot (GoInt.sub (wHeight d) dialogHeight) 2) 0 in
    let col := Z.max (GoInt.quot (GoInt.sub (wWidth d) dialogWidth) 2) 0 in
    (row, col).

(** The closure [adjust] of handleMouse: adjust coordinates for dialog
    position. *)
Definition adjust (d : Dialog) (x y : Z) : Z * Z :=
  let '(row, col) := Position d in
  (GoInt.sub (GoInt.sub x col) 1,
   GoInt.sub (GoInt.sub (GoInt.sub y row) 1) headerHeight).

Definition adjustMouse (d : Dialog) (m : terminal.Mouse) : terminal.Mouse :=
  let '(x, y) := adjust d (terminal.X m) (terminal.Y m) in
  {| terminal.X := x; terminal.Y := y;
     terminal.Button := terminal.Button m; terminal.Mod := terminal.Mod m |}.

Definition handleMouse (msg : terminal.MouseMsg) (d : Dialog)
  : M World (Dialog * option tea.Cmd) :=
  match msg with
  | terminal.MouseClickMsg ev =>
      let* _ := termSendMouse (terminal.MouseClickMsg (adjustMouse d ev)) in
      ret (d, None)
  | terminal.MouseReleaseMsg ev =>
      let* _ := termSendMouse (terminal.MouseReleaseMsg (adjustMouse d ev)) in
      ret (d, None)
  | terminal.MouseWheelMsg ev =>
      let* _ := termSendMouse (terminal.MouseWheelMsg (adjustMouse d ev)) in
      ret (d, None)
  | terminal.MouseMotionMsg ev =>
      let* _ := termSendMouse (terminal.MouseMotionMsg (adjustMouse d ev)) in
      ret (d, None)
  end.

(** Cursor returns the cursor position adjusted for the dialog's screen
    position.  Returns nil if the terminal cursor is hidden or not
    available.  [secondary] is the current theme's [Secondary] colour. *)
Definition Cursor {color : Type} (secondary : color) (d : Dialog)
  : M World (option (tea.Cursor color)) :=
  let* xy := termCursorPosition in
  let '(x, y) := xy in
  if (x <? 0) || (y <? 0) then ret None
  else
    let '(row, col) := Position d in
    ret (Some {| tea.X := GoInt.add x (GoInt.add col 1);
                 tea.Y := GoInt.add y (GoInt.add (GoInt.add row 1) headerHeight);
                 tea.Color := secondary;
                 tea.Shape := tea.CursorBlock;
                 tea.Blink := true |}).

Definition Close (d : Dialog) : M World (option tea.Cmd) :=
  let* _ := termClose in
  match onClose d with
  | Some onClose => onClose
  | None => ret None
  end.


(** Summary of handleResize, for its properties.  [outerBound]: the outer
    bound along one axis, the host bound [n] when fullscreen, else 85% of it
    capped at [n - margin].  [resized]: the dialog it leaves.  [termHeight]:
    the height it gives the terminal. *)
Definition outerBound (fs : bool) (n margin : Z) : Z :=
  if fs then n else Z.min (scale85 n) (GoInt.sub n margin).

Definition resized (msg : tea.WindowSizeMsg) (d : Dialog) : Dialog :=
  let fs := tea.Width msg <? fullscreenWidthBreakpoint in
  {| id := id d; title := title d; loadingMsg := loadingMsg d;
     onClose := onClose d;
     wWidth := tea.Width msg; wHeight := tea.Height msg;
     width := Z.max (GoInt.sub (outerBound fs (tea.Width msg) 6) 2) 40;
     height := Z.max (GoInt.sub (outerBound fs (tea.Height msg) 4) 2) 10;
     fullscreen := fs |}.

Definition termHeight (d : Dialog) : Z :=
  Z.max (GoInt.sub (height d) headerHeight) 5.

(** The translation Cursor applies to the terminal's cursor. *)
Definition cursorScreen (d : Dialog) (x y : Z) : Z * Z :=
  let '(row, col) := Position d in
  (GoInt.add x (GoInt.add col 1),
   GoInt.add y (GoInt.add (GoInt.add row 1) headerHeight)).

(** The sums and differences of Position are exact: none wraps around. *)
Definition noOverflow (d : Dialog) : Prop :=
  GoInt.in_range (width d + 2) /\
  GoInt.in_range (height d + 2) /\
  GoInt.in_range (wWidth d - (width d + 2)) /\
  GoInt.in_range (wHeight d - (height d + 2)).

(** Position as the specification words it, over the integers: (0, 0) when
    fullscreen, else the bordered box centred in the host bounds. *)
Definition PositionSpec (d : Dialog) : Z * Z :=
  if fullscreen d then (0, 0)
  else (Z.max ((wHeight d - (height d + 2)) / 2) 0,
        Z.max ((wWidth d - (width d + 2)) / 2) 0).

End Dialog.

Arguments World T : clear implicits.
Arguments Dialog T : clear implicits.
Arguments Config T : clear implicits.

End termdialog.

(** ** A scripted terminal *)

Module scripted.

(** Modelled from the spec: the embedded terminal (package internal/terminal
    is not among the sources).  It starts not started; a successful Start
    makes it started for good; Resize records the grid; Resize, Start and
    Close may fail, here as scripted by the counters [resizeFailures] and
    [startFailures] (how many of the next calls fail) and by [closeError];
    a failed Start leaves the terminal not started. *)
Record Term : Type := mkTerm {
  started : bool;
  closed : bool;
  cols : Z;
  rows : Z;
  cursor : Z * Z;
  mouse : list terminal.MouseMsg;
  resizeFailures : nat;
  startFailures : nat;
  closeError : option terminal.error
}.

(** Modelled from the spec: [Resize(width, height) error]. *)
Definition Resize (w h : Z) (t : Term) : option terminal.error * Term :=
  match resizeFailures t with
  | S n =>
      (Some "resize failed"%string,
       {| started := started t; closed := closed t;
          cols := cols t; rows := rows t; cursor := cursor t;
          mouse := mouse t; resizeFailures := n;
          startFailures := startFailures t; closeError := closeError t |})
  | O =>
      (None,
       {| started := started t; closed := closed t;
          cols := w; rows := h; cursor := cursor t;
          mouse := mouse t; resizeFailures := O;
          startFailures := startFailures t; closeError := closeError t |})
  end.

(** Modelled from the spec: [Start() error]. *)
Definition Start (t : Term) : option terminal.error * Term :=
  match startFailures t with
  | S n =>
      (Some "start failed"%string,
       {| started := started t; closed := closed t;
          cols := cols t; rows := rows t; cursor := cursor t;
          mouse := mouse t; resizeFailures := resizeFailures t;
          startFailures := n; closeError := closeError t |})
  | O =>
      (None,
       {| started := true; closed := closed t;
          cols := cols t; rows := rows t; cursor := cursor t;
          mouse := mouse t; resizeFailures := resizeFailures t;
          startFailures := O; closeError := closeError t |})
  end.

(** Modelled from the spec: [SendMouse(evt)]; the events received are
    recorded. *)
Definition SendMouse (ev : terminal.MouseMsg) (t : Term) : Term :=
  {| started := started t; closed := closed t;
     cols := cols t; rows := rows t; cursor := cursor t;
     mouse := mouse t ++ [ev]; resizeFailures := resizeFailures t;
     startFailures := startFailures t; closeError := closeError t |}.

(** Modelled from the spec: [Close() error]. *)
Definition Close (t : Term) : option terminal.error * Term :=
  (closeError t,
   {| started := started t; closed := true;
      cols := cols t; rows := rows t; cursor := cursor t;
      mouse := mouse t; resizeFailures := resizeFailures t;
      startFailures := startFailures t; closeError := closeError t |}).

#[global] Instance Terminal : terminal.Terminal Term := {|
  terminal.Started := started;
  terminal.Resize := Resize;
  terminal.Start := Start;
  terminal.SendMouse := SendMouse;
  terminal.CursorPosition := cursor;
  terminal.Close := Close
|}.

(** A fresh terminal whose next [r] resizes and next [s] starts fail. *)
Definition fresh (r s : nat) (closeErr : option terminal.error) : Term :=
  {| started := false; closed := false; cols := 0; rows := 0;
     cursor := (-1, -1); mouse := [];
     resizeFailures := r; startFailures := s; closeError := closeErr |}.

Definition world (t : Term) : termdialog.World Term :=
  {| termdialog.term := t; termdialog.calls := [] |}.

(** A dialog with no completion callback, as [New] builds it. *)
Definition dialog : termdialog.Dialog Term :=
  termdialog.New {| termdialog.ID := "tui_editor"; termdialog.Title := "Editor";
                    termdialog.LoadingMsg := ""; termdialog.OnClose := None |}.

End scripted.

(** ** Routing of messages ([Update] of package [termdialog]) *)

Module router.

(** [tea.KeyPressMsg], a [tea.Key]. *)
Record KeyPressMsg : Type := mkKeyPressMsg {
  Text : string;
  Mod : Z;
  Code : Z;
  ShiftedCode : Z;
  BaseCode : Z;
  IsRepeat : bool
}.

(** The methods of [*terminal.Terminal] that Update and handleKey call
    besides those of [terminal.Terminal]. *)
Class TerminalInput (T : Type) : Type := {
  Closed : T -> bool;
  SendText : string -> T -> T;
  SendKey : KeyPressMsg -> T -> T;
  SendPaste : string -> T -> T
}.

(** [tea.Msg], by the cases of Update's type switch; [OtherMsg] is any
    message of another type. *)
Inductive Msg : Type :=
| WindowSizeMsg (msg : tea.WindowSizeMsg)
| ExitMsg                      (* terminal.ExitMsg *)
| OutputMsg                    (* terminal.OutputMsg *)
| KeyPress (msg : KeyPressMsg)
| PasteMsg (Content : string)
| MouseMsg (msg : terminal.MouseMsg)
| OtherMsg.

Definition isWindowSizeMsg (msg : Msg) : bool :=
  match msg with WindowSizeMsg _ => true | _ => false end.

(** The payload of a mouse message and its type, click, release, wheel or
    motion, as a number. *)
Definition mouseOf (msg : terminal.MouseMsg) : terminal.Mouse :=
  match msg with
  | terminal.MouseClickMsg m | terminal.MouseReleaseMsg m
  | terminal.MouseWheelMsg m | terminal.MouseMotionMsg m => m
  end.

Definition mouseKind (msg : terminal.MouseMsg) : nat :=
  match msg with
  | terminal.MouseClickMsg _ => 0
  | terminal.MouseReleaseMsg _ => 1
  | terminal.MouseWheelMsg _ => 2
  | terminal.MouseMotionMsg _ => 3
  end.

Section Update.

Context {T : Type} {TT : terminal.Terminal T} {TI : TerminalInput T}.

Import termdialog.

Definition termClosed : M (World T) bool :=
  fun w => (Closed (term w), w).

(** The input calls change the terminal; the log of calls, which is that of
    Resize, Start, SendMouse and Close, is left as it is. *)
Definition termSendText (s : string) : M (World T) unit :=
  fun w => (tt, {| term := SendText s (term w); calls := calls w |}).

Definition termSendKey (msg : KeyPressMsg) : M (World T) unit :=
  fun w => (tt, {| term := SendKey msg (term w); calls := calls w |}).

Definition termSendPaste (s : string) : M (World T) unit :=
  fun w => (tt, {| term := SendPaste s (term w); calls := calls w |}).

Definition handleKey (msg : KeyPressMsg) (d : Dialog T)
  : M (World T) (Dialog T * option tea.Cmd) :=
  if negb (String.eqb (Text msg) EmptyString) then
    let* _ := termSendText (Text msg) in
    ret (d, None)
  else
    let* _ := termSendKey msg in
    ret (d, None).

Definition Update (msg : Msg) (d : Dialog T)
  : M (World T) (Dialog T * option tea.Cmd) :=
  match msg with
  | WindowSizeMsg msg => handleResize msg d
  | ExitMsg => ret (d, Some (tea.Emit "dialogs.CloseDialogMsg"))
  | OutputMsg =>
      let* closed := termClosed in
      if closed then ret (d, None)
      else ret (d, Some tea.RefreshCmd)
  | KeyPress msg => handleKey msg d
  | PasteMsg Content =>
      let* _ := termSendPaste Content in
      ret (d, None)
  | MouseMsg msg => handleMouse msg d
  | OtherMsg => ret (d, None)
  end.

(** A run of messages delivered one after the other, each to the dialog the
    previous one left; the commands returned are collected. *)
Fixpoint updates (msgs : list Msg) (d : Dialog T)
  : M (World T) (Dialog T * list (option tea.Cmd)) :=
  match msgs with
  | [] => ret (d, [])
  | msg :: msgs =>
      let* r := Update msg d in
      let* rs := updates msgs (fst r) in
      ret (fst rs, snd r :: snd rs)
  end.

(** The last window-size message of a run, if it has one. *)
Fixpoint lastWindowSize (msgs : list Msg) : option tea.WindowSizeMsg :=
  match msgs with
  | [] => None
  | msg :: msgs =>
      match lastWindowSize msgs, msg with
      | Some m, _ => Some m
      | None, WindowSizeMsg m => Some m
      | None, _ => None
      end
  end.

(** What a key message hands to the terminal. *)
Definition forwardKey (t : T) (msg : KeyPressMsg) : T :=
  if String.eqb (Text msg) EmptyString then SendKey msg t
  else SendText (Text msg) t.

End Update.

End router.

(** ** A scripted terminal that records its input *)

Module console.

Inductive Sent : Type :=
| SentText (s : string)
| SentKey (msg : router.KeyPressMsg)
| SentPaste (s : string).

(** Modelled from the spec: the embedded terminal with its input methods
    (package internal/terminal is not among the sources): the scripted
    terminal and the input it received, oldest first; it is closed once
    Close was called. *)
Record Console : Type := mkConsole {
  base : scripted.Term;
  received : list Sent
}.

Definition lift (f : scripted.Term -> option terminal.error * scripted.Term)
  (c : Console) : option terminal.error * Console :=
  (fst (f (base c)), {| base := snd (f (base c)); received := received c |}).

#[global] Instance Terminal : terminal.Terminal Console := {|
  terminal.Started := fun c => scripted.started (base c);
  terminal.Resize := fun w h => lift (scripted.Resize w h);
  terminal.Start := lift scripted.Start;
  terminal.SendMouse := fun ev c =>
    {| base := scripted.SendMouse ev (base c); received := received c |};
  terminal.CursorPosition := fun c => scripted.cursor (base c);
  terminal.Close := lift scripted.Close
|}.

#[global] Instance Input : router.TerminalInput Console := {|
  router.Closed := fun c => scripted.closed (base c);
  router.SendText := fun s c =>
    {| base := base c; received := received c ++ [SentText s] |};
  router.SendKey := fun k c =>
    {| base := base c; received := received c ++ [SentKey k] |};
  router.SendPaste := fun s c =>
    {| base := base c; received := received c ++ [SentPaste s] |}
|}.

Definition fresh : Console :=
  {| base := scripted.fresh 0 0 None; received := [] |}.

(** A console whose cursor is at (x, y). *)
Definition withCursor (x y : Z) : Console :=
  {| base := {| scripted.started := true; scripted.closed := false;
                scripted.cols := 0; scripted.rows := 0;
                scripted.cursor := (x, y); scripted.mouse := [];
                scripted.resizeFailures := 0; scripted.startFailures := 0;
                scripted.closeError := None |};
     received := [] |}.

Definition world (c : Console) : termdialog.World Console :=
  {| termdialog.term := c; termdialog.calls := [] |}.

Definition dialog : termdialog.Dialog Console :=
  termdialog.New {| termdialog.ID := "tui_editor"; termdialog.Title := "Editor";
                    termdialog.LoadingMsg := ""; termdialog.OnClose := None |}.

(** The letter a and the Enter key. *)
Definition keyA : router.KeyPressMsg :=
  {| router.Text := "a"; router.Mod := 0; router.Code := 97;
     router.ShiftedCode := 0; router.BaseCode := 0; router.IsRepeat := false |}.

Definition keyEnter : router.KeyPressMsg :=
  {| router.Text := ""; router.Mod := 0; router.Code := 13;
     router.ShiftedCode := 0; router.BaseCode := 0; router.IsRepeat := false |}.

End console.

(** ** Go's library functions the editor and theme code calls *)

Module strings.

(** [strings.Index(s, substr)]: the index of the first instance of [substr]
    in [s], or -1. *)
Fixpoint Index (s substr : string) : Z :=
  if String.prefix substr s then 0
  else
    match s with
    | EmptyString => -1
    | String _ s' =>
        let i := Index s' substr in
        if i =? -1 then -1 else i + 1
    end.

(** The slice expression [s[:idx]], for [0 <= idx <= len(s)]. *)
Definition sliceTo (s : string) (idx : Z) : string :=
  substring 0 (Z.to_nat idx) s.

(** The white space of ASCII: tab, line feed, vertical tab, form feed,
    carriage return and space ([asciiSpace] of package strings). *)
Definition asciiSpace (c : ascii) : bool :=
  let n := nat_of_ascii c in
  ((9 <=? n) && (n <=? 13) || (n =? 32))%nat.

Definition isASCII (s : string) : bool :=
  forallb (fun c => (nat_of_ascii c <? 128)%nat) (list_ascii_of_string s).

(** The fields of a string of ASCII bytes: its maximal runs of bytes that
    are not white space.  [field] is the field being read, if any. *)
Fixpoint fieldsFrom (s : string) (field : option string) : list string :=
  match s with
  | EmptyString =>
      match field with
      | Some f => [f]
      | None => []
      end
  | String c s' =>
      if asciiSpace c then
        match field with
        | Some f => f :: fieldsFrom s' None
        | None => fieldsFrom s' None
        end
      else
        fieldsFrom s'
          (Some (match field with
                 | Some f => f ++ String c EmptyString
                 | None => String c EmptyString
                 end)%string)
  end.

(** [strings.Fields(s)]: [s] split around each run of white space.  On a
    string of ASCII bytes the white space is [asciiSpace]; on any other
    string Fields hands over to [FieldsFunc(s, unicode.IsSpace)], which is
    the parameter [unicodeFields] here. *)
Definition Fields (unicodeFields : string -> list string) (s : string)
  : list string :=
  if isASCII s then fieldsFrom s None else unicodeFields s.

End strings.

Module filepath.

Definition isSlash (c : ascii) : bool := Ascii.eqb c "/"%char.

Fixpoint hasSlash (s : string) : bool :=
  match s with
  | EmptyString => false
  | String c s' => isSlash c || hasSlash s'
  end.

(** [s] without its trailing slashes. *)
Fixpoint stripSlashes (s : string) : string :=
  match s with
  | EmptyString => EmptyString
  | String c s' =>
      let r := stripSlashes s' in
      if isSlash c && String.eqb r EmptyString then EmptyString
      else String c r
  end.

(** What follows the last slash of [s]; [s] itself when it has none. *)
Fixpoint lastElement (s : string) : string :=
  match s with
  | EmptyString => EmptyString
  | String c s' =>
      if hasSlash s' then lastElement s'
      else if isSlash c then s'
      else String c s'
  end.

(** [filepath.Base(path)] where the separator is the slash and there are no
    volume names: the last element of [path], trailing slashes removed
    first; ["."] for the empty path and ["/"] for a path of slashes only. *)
Definition Base (path : string) : string :=
  if String.eqb path EmptyString then "."%string
  else
    let path := stripSlashes path in
    let path := lastElement path in
    if String.eqb path EmptyString then "/"%string else path.

End filepath.

Module slices.

(** [slices.Contains(s, v)] on strings. *)
Definition Contains (s : list string) (v : string) : bool :=
  existsb (String.eqb v) s.

End slices.

Module fmt.

Definition hexDigit (n : N) : ascii :=
  match n with
  | 0 => "0" | 1 => "1" | 2 => "2" | 3 => "3" | 4 => "4" | 5 => "5"
  | 6 => "6" | 7 => "7" | 8 => "8" | 9 => "9" | 10 => "a" | 11 => "b"
  | 12 => "c" | 13 => "d" | 14 => "e" | _ => "f"
  end%N%char.

(** The hexadecimal digits of [n] before [acc], at most [fuel] of them. *)
Fixpoint hexDigits (fuel : nat) (n : N) (acc : string) : string :=
  match fuel with
  | O => acc
  | S fuel =>
      let acc := String (hexDigit (n mod 16)) acc in
      if (n / 16 =? 0)%N then acc else hexDigits fuel (n / 16) acc
  end.

(** The verb [%02x] on a [uint32]: lower-case hexadecimal, padded with zeros
    on the left to two digits. *)
Definition x02 (n : N) : string :=
  let s := hexDigits 8 n EmptyString in
  if (String.length s <? 2)%nat then String "0"%char s else s.

End fmt.

(** ** The editor dialog (package [tuieditor]) *)

Module tuieditor.

(** knownTUIEditors is a list of terminal-based editors that can be
    embedded. *)
Definition knownTUIEditors : list string :=
  ["vim"; "nvim"; "vi"; "nano"; "helix"; "hx"; "micro"; "emacs"; "joe";
   "ne"; "jed"; "kak"; "pico"; "mcedit"; "mg"; "zile"]%string.

(** IsTUIEditor returns true if the given editor command is a known TUI
    editor. *)
Definition IsTUIEditor (editor : string) : bool :=
  let base := filepath.Base editor in
  let idx := strings.Index base " " in
  let base := if negb (idx =? -1) then strings.sliceTo base idx else base in
  slices.Contains knownTUIEditors base.

(** The command NewDialog prepares, its name and its arguments (the first
    lines of NewDialog, down to the call of PrepareCmd).  [None] is the
    run-time panic of [parts[0]] on an empty [parts]. *)
Definition editorCommand (unicodeFields : string -> list string)
  (Editor FilePath : string) : option (string * list string) :=
  let editorCmd := Editor in
  let editorCmd :=
    if String.eqb editorCmd EmptyString then "nvim"%string else editorCmd in
  let parts := strings.Fields unicodeFields editorCmd in
  match parts with
  | [] => None
  | cmdName :: rest => Some (cmdName, rest ++ [FilePath])
  end.

End tuieditor.

(** ** The theme colours (packages [ghdash] and [lazygit]) *)

Module ghdash.

(** What the method RGBA of a [color.Color] returns: four [uint32]. *)
Record RGBA : Type := mkRGBA {
  R : N;
  G : N;
  B : N;
  A : N
}.

(** colorToHex converts a color.Color to a hex string. *)
Definition colorToHex (c : RGBA) : string :=
  (String "#"%char EmptyString
   ++ fmt.x02 (N.shiftr (R c) 8)
   ++ fmt.x02 (N.shiftr (G c) 8)
   ++ fmt.x02 (N.shiftr (B c) 8))%string.

(** Reading a colour of the form #rrggbb back: the value of a hexadecimal
    digit, and the three bytes of the string. *)
Definition hexValue (c : ascii) : option N :=
  let n := N.of_nat (nat_of_ascii c) in
  if ((48 <=? n) && (n <=? 57))%N then Some (n - 48)%N
  else if ((97 <=? n) && (n <=? 102))%N then Some (n - 87)%N
  else None.

Definition hexByte (hi lo : ascii) : option N :=
  match hexValue hi, hexValue lo with
  | Some h, Some l => Some (16 * h + l)%N
  | _, _ => None
  end.

Definition parseHex (s : string) : option (N * N * N) :=
  match s with
  | String "#" (String r1 (String r2 (String g1 (String g2
      (String b1 (String b2 EmptyString)))))) =>
      match hexByte r1 r2, hexByte g1 g2, hexByte b1 b2 with
      | Some r, Some g, Some b => Some (r, g, b)
      | _, _, _ => None
      end
  | _ => None
  end.

End ghdash.

(** The multiples of [2 ^ 64] in a sum, added up. *)
Ltac multiples e :=
  lazymatch e with
  | ?a + ?b =>
      let ka := multiples a in let kb := multiples b in constr:(ka + kb)
  | ?a - ?b =>
      let ka := multiples a in let kb := multiples b in constr:(ka - kb)
  | ?k * 2 ^ 64 => constr:(k)
  | _ => constr:(0)
  end.

(** * Properties *)

(** ** Wrap-around arithmetic *)

Lemma wrap_in_range (z : Z) : GoInt.in_range z -> GoInt.wrap z = z.
Proof.
  unfold GoInt.in_range, GoInt.wrap, GoInt.min_int, GoInt.max_int. intros H.
  rewrite Z.mod_small; lia.
Qed.

Lemma wrap_range (z : Z) : GoInt.in_range (GoInt.wrap z).
Proof.
  unfold GoInt.in_range, GoInt.wrap, GoInt.min_int, GoInt.max_int.
  pose proof (Z.mod_pos_bound (z + 2 ^ 63) (2 ^ 64) ltac:(lia)). lia.
Qed.

(** A wrapped value differs from the exact one by a multiple of [2 ^ 64]. *)
Lemma wrap_multiple (a : Z) : exists k : Z, GoInt.wrap a = a + k * 2 ^ 64.
Proof.
  exists (- ((a + 2 ^ 63) / 2 ^ 64)). unfold GoInt.wrap.
  rewrite Z.mod_eq by lia. lia.
Qed.

Lemma wrap_shift (a k : Z) : GoInt.wrap (a + k * 2 ^ 64) = GoInt.wrap a.
Proof.
  unfold GoInt.wrap. f_equal.
  replace (a + k * 2 ^ 64 + 2 ^ 63) with (a + 2 ^ 63 + k * 2 ^ 64) by lia.
  apply Z_mod_plus_full.
Qed.

Lemma in_rangeb_spec (z : Z) : GoInt.in_rangeb z = true <-> GoInt.in_range z.
Proof. unfold GoInt.in_rangeb, GoInt.in_range. rewrite andb_true_iff, !Z.leb_le. tauto. Qed.

(** ** Rounding of [float64] *)

Lemma digits2_pos_bounds (m : positive) :
  2 ^ (Zpos (digits2_pos m) - 1) <= Zpos m < 2 ^ Zpos (digits2_pos m).
Proof.
  induction m as [m IH | m IH |]; cbn [digits2_pos].
  - rewrite Pos2Z.inj_succ.
    replace (Z.succ (Zpos (digits2_pos m)) - 1) with (Z.succ (Zpos (digits2_pos m) - 1)) by lia.
    rewrite !Z.pow_succ_r by lia. lia.
  - rewrite Pos2Z.inj_succ.
    replace (Z.succ (Zpos (digits2_pos m)) - 1) with (Z.succ (Zpos (digits2_pos m) - 1)) by lia.
    rewrite !Z.pow_succ_r by lia. lia.
  - cbn. lia.
Qed.

Lemma shr_1_m (r : shr_record) :
  0 <= shr_m r -> shr_m (shr_1 r) = shr_m r / 2.
Proof.
  destruct r as [m r s]; cbn [shr_m]; intros Hm.
  destruct m as [| p | p]; [reflexivity | | lia].
  destruct p as [p | p |]; cbn [shr_1 shr_m].
  - rewrite Pos2Z.inj_xI. apply Z.div_unique with (r := 1); lia.
  - rewrite Pos2Z.inj_xO. apply Z.div_unique with (r := 0); lia.
  - reflexivity.
Qed.

Lemma iter_pos_shr_m (p : positive) : forall r : shr_record,
  0 <= shr_m r -> shr_m (iter_pos shr_1 p r) = shr_m r / 2 ^ Zpos p.
Proof.
  induction p as [p IH | p IH |]; intros r Hr; cbn [iter_pos].
  - assert (H1 : 0 <= shr_m (shr_1 r)) by (rewrite shr_1_m by assumption; apply Z.div_pos; lia).
    assert (H2 : 0 <= shr_m (iter_pos shr_1 p (shr_1 r)))
      by (rewrite IH by assumption; apply Z.div_pos; [assumption | apply Z.pow_pos_nonneg; lia]).
    rewrite IH, IH, shr_1_m by assumption.
    rewrite !Z.div_div by (try apply Z.pow_pos_nonneg; lia).
    f_equal.
    replace (Zpos p~1) with (1 + Zpos p + Zpos p) by lia.
    rewrite !Z.pow_add_r by lia. lia.
  - assert (H2 : 0 <= shr_m (iter_pos shr_1 p r))
      by (rewrite IH by assumption; apply Z.div_pos; [assumption | apply Z.pow_pos_nonneg; lia]).
    rewrite IH, IH by assumption.
    rewrite !Z.div_div by (try apply Z.pow_pos_nonneg; lia).
    f_equal.
    replace (Zpos p~0) with (Zpos p + Zpos p) by lia.
    rewrite !Z.pow_add_r by lia. lia.
  - rewrite shr_1_m by assumption. reflexivity.
Qed.

Lemma shr_record_of_loc_m m l : shr_m (shr_record_of_loc m l) = m.
Proof. destruct l as [| []]; reflexivity. Qed.

(** Shifting right by [n] digits divides the mantissa by [2 ^ n]. *)
Lemma shr_m_div (r : shr_record) (e n : Z) :
  0 <= shr_m r ->
  shr_m (fst (shr r e n)) = shr_m r / 2 ^ Z.max n 0 /\
  snd (shr r e n) = e + Z.max n 0.
Proof.
  intros Hr. destruct n as [| p | p]; cbn [shr fst snd].
  - cbn. rewrite Z.div_1_r. lia.
  - rewrite iter_pos_shr_m by assumption. rewrite Z.max_l by lia. split; reflexivity.
  - rewrite Z.max_r by lia. cbn. rewrite Z.div_1_r. lia.
Qed.

Lemma round_nearest_even_bounds m l :
  m <= round_nearest_even m l <= m + 1.
Proof.
  unfold round_nearest_even. destruct l as [| []]; try lia.
  destruct (Z.even m); lia.
Qed.

Lemma Zdigits2_lt_pow (a k : Z) :
  0 <= k -> 0 <= a < 2 ^ k -> Zdigits2 a <= k.
Proof.
  intros Hk [Ha Hlt]. destruct a as [| p | p]; cbn [Zdigits2]; try lia.
  pose proof (digits2_pos_bounds p) as [Hlo _].
  assert (H : 2 ^ (Zpos (digits2_pos p) - 1) < 2 ^ k) by lia.
  apply Z.pow_lt_mono_r_iff in H; lia.
Qed.

Lemma fexp_le (a b : Z) : a <= b -> fexp 53 1024 a <= fexp 53 1024 b.
Proof. unfold fexp. lia. Qed.

Lemma shr_fexp_m (m e : Z) (l : location) :
  0 <= m ->
  let k := Z.max (fexp 53 1024 (Zdigits2 m + e) - e) 0 in
  shr_m (fst (shr_fexp 53 1024 m e l)) = m / 2 ^ k /\
  snd (shr_fexp 53 1024 m e l) = e + k.
Proof.
  intros Hm k. unfold shr_fexp.
  pose proof (shr_m_div (shr_record_of_loc m l) e
                (fexp 53 1024 (Zdigits2 m + e) - e)) as H.
  rewrite shr_record_of_loc_m in H. apply H. assumption.
Qed.

(** Rounding a positive mantissa: the result is zero or finite with the
    sign given, its exponent is at least the canonical one and its value
    exceeds the exact one by at most one unit of that exponent. *)
Lemma binary_round_aux_bound (s : bool) (m : positive) (e : Z) :
  let e1 := Z.max e (fexp 53 1024 (Zpos (digits2_pos m) + e)) in
  let e2 := Z.max e1 (fexp 53 1024 (Zpos (digits2_pos m) + 1 + e1)) in
  e2 <= 971 ->
  binary_round_aux 53 1024 s (Zpos m) e loc_Exact = S754_zero s \/
  exists (m' : positive) (e' : Z),
    binary_round_aux 53 1024 s (Zpos m) e loc_Exact = S754_finite s m' e' /\
    e1 <= e' <= e2 /\
    Zpos m' * 2 ^ (e' - e) <= Zpos m + 2 ^ (e1 - e).
Proof.
  intros e1 e2 He2. unfold binary_round_aux.
  pose proof (shr_fexp_m (Zpos m) e loc_Exact ltac:(lia)) as [Hm1 He1].
  destruct (shr_fexp 53 1024 (Zpos m) e loc_Exact) as [r1 e1'].
  cbn [fst snd] in Hm1, He1. cbn [Zdigits2] in Hm1, He1.
  set (k1 := Z.max (fexp 53 1024 (Zpos (digits2_pos m) + e) - e) 0) in *.
  assert (Ee1 : e1' = e1) by (unfold e1; lia). clear He1. subst e1'.
  set (m2 := round_nearest_even (shr_m r1) (loc_of_shr_record r1)).
  pose proof (round_nearest_even_bounds (shr_m r1) (loc_of_shr_record r1)) as Hm2.
  fold m2 in Hm2.
  assert (Hk1 : 0 < 2 ^ k1) by (apply Z.pow_pos_nonneg; lia).
  assert (Hm1pos : 0 <= shr_m r1) by (rewrite Hm1; apply Z.div_pos; lia).
  assert (Hm1le : shr_m r1 * 2 ^ k1 <= Zpos m)
    by (rewrite Hm1, Z.mul_comm; apply Z.mul_div_le; lia).
  pose proof (shr_fexp_m m2 e1 loc_Exact ltac:(lia)) as [Hm3 He3].
  destruct (shr_fexp 53 1024 m2 e1 loc_Exact) as [r3 e3].
  cbn [fst snd] in Hm3, He3.
  set (k2 := Z.max (fexp 53 1024 (Zdigits2 m2 + e1) - e1) 0) in *.
  assert (Hk2 : 0 < 2 ^ k2) by (apply Z.pow_pos_nonneg; lia).
  assert (Hm3pos : 0 <= shr_m r3) by (rewrite Hm3; apply Z.div_pos; lia).
  assert (Hm3le : shr_m r3 * 2 ^ k2 <= m2)
    by (rewrite Hm3, Z.mul_comm; apply Z.mul_div_le; lia).
  assert (Hd2 : Zdigits2 m2 <= Zpos (digits2_pos m) + 1).
  { apply Zdigits2_lt_pow; [lia |].
    pose proof (digits2_pos_bounds m) as [_ Hhi].
    rewrite Z.pow_add_r, Z.pow_1_r by lia.
    assert (shr_m r1 <= Zpos m) by nia. lia. }
  assert (He3le : e3 <= e2).
  { subst e3. unfold k2, e2.
    pose proof (fexp_le (Zdigits2 m2 + e1) (Zpos (digits2_pos m) + 1 + e1) ltac:(lia)).
    lia. }
  cbv beta iota.
  destruct (shr_m r3) as [| m' | m'] eqn:Em3; [left; reflexivity | | lia].
  right. exists m', e3. split.
  - replace (e3 <=? 1024 - 53) with true by (symmetry; apply Z.leb_le; lia).
    reflexivity.
  - split; [lia |].
    replace (e3 - e) with (k2 + k1) by lia.
    replace (e1 - e) with k1 by lia.
    rewrite Z.pow_add_r by lia. nia.
Qed.

Lemma shr_nonpos (r : shr_record) (e n : Z) : n <= 0 -> shr r e n = (r, e).
Proof. destruct n; [reflexivity | lia | reflexivity]. Qed.

(** A mantissa that is already canonical is kept as it is. *)
Lemma binary_round_aux_exact (s : bool) (m : positive) (e : Z) :
  fexp 53 1024 (Zpos (digits2_pos m) + e) <= e -> e <= 971 ->
  binary_round_aux 53 1024 s (Zpos m) e loc_Exact = S754_finite s m e.
Proof.
  intros Hc He. unfold binary_round_aux, shr_fexp.
  cbn [Zdigits2 shr_record_of_loc].
  rewrite shr_nonpos by lia. cbn [shr_m loc_of_shr_record round_nearest_even].
  cbn [Zdigits2]. rewrite shr_nonpos by lia. cbn [shr_m].
  replace (e <=? 1024 - 53) with true by (symmetry; apply Z.leb_le; lia).
  reflexivity.
Qed.

Lemma iter_xO_pow (m d : positive) :
  Zpos (Pos.iter xO m d) = Zpos m * 2 ^ Zpos d.
Proof.
  induction d as [| d IH] using Pos.peano_ind.
  - cbn. lia.
  - rewrite Pos.iter_succ, Pos2Z.inj_xO, IH, Pos2Z.inj_succ, Z.pow_succ_r by lia.
    lia.
Qed.

Lemma iter_xO_digits (m d : positive) :
  Zpos (digits2_pos (Pos.iter xO m d)) = Zpos (digits2_pos m) + Zpos d.
Proof.
  induction d as [| d IH] using Pos.peano_ind.
  - cbn [Pos.iter digits2_pos]. lia.
  - rewrite Pos.iter_succ. cbn [digits2_pos]. lia.
Qed.

Lemma digits2_pos_le_pow (p : positive) (k : Z) :
  0 <= k -> Zpos p <= 2 ^ k -> Zpos (digits2_pos p) <= k + 1.
Proof.
  intros Hk Hp.
  apply (Zdigits2_lt_pow (Zpos p) (k + 1)); [lia |].
  rewrite Z.pow_add_r, Z.pow_1_r by lia. lia.
Qed.

(** [float64(x)] of a positive [x] up to [2 ^ 63]: its exponent lies
    between -52 and 23 and its value exceeds [x] by at most [x / 2 ^ 52]. *)
Lemma binary_round_int_bound (s : bool) (p : positive) :
  Zpos p <= 2 ^ 63 ->
  binary_round 53 1024 s p 0 = S754_zero s \/
  exists (m : positive) (e : Z),
    binary_round 53 1024 s p 0 = S754_finite s m e /\
    -52 <= e <= 23 /\
    Zpos m * 2 ^ (e + 52) <= Zpos p * (2 ^ 52 + 1).
Proof.
  intros Hp. unfold binary_round, shl_align.
  pose proof (digits2_pos_bounds p) as [Hlo Hhi].
  pose proof (digits2_pos_le_pow p 63 ltac:(lia) Hp) as Hd.
  set (d := Zpos (digits2_pos p)) in *.
  assert (Ef : fexp 53 1024 (d + 0) = d - 53) by (unfold fexp, emin; lia).
  rewrite Ef, Z.sub_0_r.
  destruct (d - 53) as [| k | k] eqn:Ek.
  - (* 53 digits: exact *)
    right. exists p, 0. rewrite binary_round_aux_exact; [| fold d; lia | lia].
    split; [reflexivity |]. split; [lia |]. cbn. lia.
  - (* more than 53 digits: rounded *)
    destruct (binary_round_aux_bound s p 0) as [Hz | (m' & e' & Hr & He' & Hv)].
    + fold d. unfold fexp, emin. lia.
    + left. exact Hz.
    + right. exists m', e'. split; [exact Hr |].
      fold d in He', Hv.
      assert (E1 : Z.max 0 (fexp 53 1024 (d + 0)) = d - 53) by (rewrite Ef; lia).
      rewrite E1 in He', Hv.
      assert (E2 : Z.max (d - 53) (fexp 53 1024 (d + 1 + (d - 53))) <= 23)
        by (unfold fexp, emin; lia).
      split; [lia |].
      rewrite !Z.sub_0_r in Hv.
      rewrite Z.pow_add_r by lia.
      assert (Hpow : 2 ^ (d - 53) * 2 ^ 52 = 2 ^ (d - 1))
        by (rewrite <- Z.pow_add_r by lia; f_equal; lia).
      nia.
  - (* fewer than 53 digits: aligned, exact *)
    right. exists (Pos.iter xO p k), (Zneg k).
    rewrite binary_round_aux_exact.
    + split; [reflexivity |]. split; [lia |].
      rewrite iter_xO_pow, <- Z.mul_assoc, <- Z.pow_add_r by lia.
      assert (Hle : 2 ^ (Zpos k + (Zneg k + 52)) <= 2 ^ 52 + 1).
      { replace (Zpos k + (Zneg k + 52)) with 52 by lia. lia. }
      nia.
    + rewrite iter_xO_digits. fold d. unfold fexp, emin. lia.
    + lia.
Qed.

Lemma trunc_finite_bound (s : bool) (m : positive) (e k : Z) :
  0 <= k -> 0 <= e + k ->
  exists v, Float64.trunc (S754_finite s m e) = Some (if s then - v else v) /\
            0 <= v /\ v * 2 ^ k <= Zpos m * 2 ^ (e + k).
Proof.
  intros Hk Hek. cbn [Float64.trunc].
  destruct (0 <=? e) eqn:Ee.
  - apply Z.leb_le in Ee. exists (Zpos m * 2 ^ e). split; [reflexivity |].
    assert (0 < 2 ^ e) by (apply Z.pow_pos_nonneg; lia).
    split; [lia |]. rewrite Z.pow_add_r by lia. lia.
  - apply Z.leb_gt in Ee. exists (Zpos m / 2 ^ (- e)). split; [reflexivity |].
    assert (Hp : 0 < 2 ^ (- e)) by (apply Z.pow_pos_nonneg; lia).
    assert (Hq : 0 < 2 ^ (e + k)) by (apply Z.pow_pos_nonneg; lia).
    split; [apply Z.div_pos; lia |].
    replace k with (- e + (e + k)) at 1 by lia.
    rewrite Z.pow_add_r by lia.
    pose proof (Z.mul_div_le (Zpos m) (2 ^ (- e)) Hp). nia.
Qed.

(** The integer part of [float64(x) * 0.85] for a positive [x] up to
    [2 ^ 63] lies between 0 and [x]. *)
Lemma trunc_scale_bound (s : bool) (p : positive) :
  Zpos p <= 2 ^ 63 ->
  exists v,
    Float64.trunc (Float64.mul (binary_round 53 1024 s p 0) Float64.c0_85)
    = Some (if s then - v else v) /\
    0 <= v <= Zpos p.
Proof.
  intros Hp.
  destruct (binary_round_int_bound s p Hp) as [Hz | (m & e & Hr & He & Hv)].
  { rewrite Hz. exists 0. cbn. destruct s; split; (reflexivity || lia). }
  rewrite Hr. unfold Float64.mul, Float64.c0_85, SFmul, Float64.prec, Float64.emax.
  rewrite xorb_false_r.
  set (mc := 7656119366529843%positive).
  set (M := (m * mc)%positive).
  assert (HM : Zpos M = Zpos m * Zpos mc) by reflexivity.
  assert (Ha : 0 < 2 ^ (e + 52)) by (apply Z.pow_pos_nonneg; lia).
  assert (Hm116 : Zpos m < 2 ^ 116).
  { assert (Zpos m * 1 <= Zpos m * 2 ^ (e + 52)) by (apply Z.mul_le_mono_nonneg_l; lia).
    assert (Zpos p * (2 ^ 52 + 1) < 2 ^ 116) by lia. lia. }
  pose proof (digits2_pos_bounds M) as [HMlo HMhi].
  set (dM := Zpos (digits2_pos M)) in *.
  assert (HdMlo : 53 <= dM).
  { assert (H : 2 ^ 52 < 2 ^ dM) by (unfold mc in HM; nia).
    apply Z.pow_lt_mono_r_iff in H; lia. }
  assert (HdMhi : dM <= 169).
  { assert (H : Zpos M < 2 ^ 169) by (unfold mc in HM; nia).
    assert (H' : 2 ^ (dM - 1) < 2 ^ 169) by lia.
    apply Z.pow_lt_mono_r_iff in H'; lia. }
  set (E := e + -53).
  assert (E1 : Z.max E (fexp 53 1024 (dM + E)) = E + (dM - 53))
    by (unfold fexp, emin, E; lia).
  destruct (binary_round_aux_bound s M E) as [Hz | (m' & e' & Hr' & He' & Hv')].
  { fold dM. rewrite E1. unfold fexp, emin, E. lia. }
  { rewrite Hz. exists 0. cbn. destruct s; split; (reflexivity || lia). }
  rewrite Hr'. fold dM in He', Hv'. rewrite E1 in He', Hv'.
  destruct (trunc_finite_bound s m' e' (- E)) as (v & Hv1 & Hv2 & Hv3);
    [unfold E; lia | lia |].
  exists v. split; [exact Hv1 |]. split; [exact Hv2 |].
  replace (e' + - E) with (e' - E) in Hv3 by lia.
  replace (E + (dM - 53) - E) with (dM - 53) in Hv' by lia.
  (* v * 2^(-E) <= m' * 2^(e'-E) <= M + 2^(dM-53) *)
  assert (Hpow : 2 ^ (dM - 53) * 2 ^ 52 = 2 ^ (dM - 1))
    by (rewrite <- Z.pow_add_r by lia; f_equal; lia).
  assert (H1 : v * 2 ^ (- E) * 2 ^ 52 <= Zpos M * (2 ^ 52 + 1)) by nia.
  assert (HE : 2 ^ (- E) * 2 ^ (e + 52) = 2 ^ 105)
    by (rewrite <- Z.pow_add_r by (unfold E; lia); f_equal; unfold E; lia).
  assert (H2 : v * 2 ^ 105 * 2 ^ 52 <= Zpos p * (2 ^ 52 + 1) * Zpos mc * (2 ^ 52 + 1)).
  { rewrite <- HE.
    apply Z.le_trans with (Zpos M * (2 ^ 52 + 1) * 2 ^ (e + 52)).
    - replace (v * (2 ^ (- E) * 2 ^ (e + 52)) * 2 ^ 52)
        with (v * 2 ^ (- E) * 2 ^ 52 * 2 ^ (e + 52)) by ring.
      apply Z.mul_le_mono_nonneg_r; lia.
    - rewrite HM.
      replace (Zpos m * Zpos mc * (2 ^ 52 + 1) * 2 ^ (e + 52))
        with (Zpos m * 2 ^ (e + 52) * (Zpos mc * (2 ^ 52 + 1))) by ring.
      replace (Zpos p * (2 ^ 52 + 1) * Zpos mc * (2 ^ 52 + 1))
        with (Zpos p * (2 ^ 52 + 1) * (Zpos mc * (2 ^ 52 + 1))) by ring.
      apply Z.mul_le_mono_nonneg_r; lia. }
  assert (H3 : (2 ^ 52 + 1) * Zpos mc * (2 ^ 52 + 1) <= 2 ^ 105 * 2 ^ 52)
    by (unfold mc; lia).
  assert (H4 : v * (2 ^ 105 * 2 ^ 52) <= Zpos p * (2 ^ 105 * 2 ^ 52)).
  { apply Z.le_trans with (Zpos p * ((2 ^ 52 + 1) * Zpos mc * (2 ^ 52 + 1))).
    - lia.
    - apply Z.mul_le_mono_nonneg_l; lia. }
  apply Z.mul_le_mono_pos_r in H4; lia.
Qed.

(** The constant is the [float64] nearest to 85/100: a 53-digit mantissa
    within half a unit of [85/100 * 2 ^ 53]. *)
Lemma c0_85_nearest :
  exists m : positive,
    Float64.c0_85 = S754_finite false m (-53) /\
    2 ^ 52 <= Zpos m < 2 ^ 53 /\
    2 * Z.abs (100 * Zpos m - 85 * 2 ^ 53) <= 100.
Proof. eexists. split; [reflexivity |]. split; lia. Qed.

(** [int(float64(n) * 0.85)] never leaves the range of [int]: it lies between
    0 and [n]. *)
Lemma scale85_bounds (n : Z) :
  GoInt.in_range n ->
  (0 <= n -> 0 <= termdialog.scale85 n <= n) /\
  (n <= 0 -> n <= termdialog.scale85 n <= 0).
Proof.
  unfold GoInt.in_range, GoInt.min_int, GoInt.max_int. intros Hn.
  unfold termdialog.scale85, Float64.to_int, Float64.of_int, binary_normalize.
  destruct n as [| p | p].
  - cbn. lia.
  - destruct (trunc_scale_bound false p ltac:(lia)) as (v & Hv & Hb).
    unfold Float64.prec, Float64.emax. rewrite Hv.
    replace (GoInt.in_rangeb v) with true
      by (symmetry; apply in_rangeb_spec;
          unfold GoInt.in_range, GoInt.min_int, GoInt.max_int; lia).
    lia.
  - destruct (trunc_scale_bound true p ltac:(lia)) as (v & Hv & Hb).
    unfold Float64.prec, Float64.emax. rewrite Hv.
    replace (GoInt.in_rangeb (- v)) with true
      by (symmetry; apply in_rangeb_spec;
          unfold GoInt.in_range, GoInt.min_int, GoInt.max_int; lia).
    lia.
Qed.

(** ** The resize handler *)

Section HandleResize.

Context {T : Type} {TT : terminal.Terminal T}.

Import termdialog.

Lemma cap_min (a b : Z) : (if a >? b then b else a) = Z.min a b.
Proof. destruct (Z.gtb_spec a b); lia. Qed.

(** The guard [d.width > 0 && termHeight > 0] holds whatever was computed:
    the floors make both positive. *)
Lemma guard_floor (s : bool) (a b : Z) :
  negb s && (Z.max a 40 >? 0) && (Z.max b 5 >? 0) = negb s.
Proof.
  replace (Z.max a 40 >? 0) with true by (symmetry; apply Z.gtb_lt; lia).
  replace (Z.max b 5 >? 0) with true by (symmetry; apply Z.gtb_lt; lia).
  destruct s; reflexivity.
Qed.

(** handleResize, with its guard resolved: it stores the new geometry,
    resizes the terminal and, when that succeeded on a terminal that was not
    started, starts it. *)
Lemma handleResize_run (msg : tea.WindowSizeMsg) (d : Dialog T) (w : World T) :
  let d' := resized msg d in
  handleResize msg d w =
  let (e1, t1) := terminal.Resize (width d') (termHeight d') (term w) in
  let w1 := {| term := t1;
               calls := calls w ++
                        [terminal.CallResize (width d') (termHeight d') e1] |} in
  match e1 with
  | Some err => (d', Some (tea.ReportError err), w1)
  | None =>
      if terminal.Started (term w) then (d', None, w1)
      else
        let (e2, t2) := terminal.Start t1 in
        let w2 := {| term := t2;
                     calls := calls w1 ++ [terminal.CallStart e2] |} in
        match e2 with
        | Some err => (d', Some (tea.ReportError err), w2)
        | None => (d', Some (tea.Batch [tea.WaitCmd; tea.RefreshCmd]), w2)
        end
  end.
Proof.
  cbv beta iota zeta
    delta [handleResize resized termHeight outerBound bind ret
           termStarted termResize termStart width height].
  destruct (tea.Width msg <? fullscreenWidthBreakpoint);
    rewrite ?cap_min, guard_floor;
    destruct (terminal.Started (term w)); cbn [negb];
    destruct (terminal.Resize _ _ (term w)) as [[err |] t1]; try reflexivity;
    cbn [term calls];
    destruct (terminal.Start t1) as [[err |] t2]; reflexivity.
Qed.

Lemma handleResize_dialog (msg : tea.WindowSizeMsg) (d : Dialog T) (w : World T) :
  fst (fst (handleResize msg d w)) = resized msg d.
Proof.
  rewrite handleResize_run.
  destruct (terminal.Resize _ _ (term w)) as [[err |] t1]; [reflexivity |].
  destruct (terminal.Started (term w)); [reflexivity |].
  destruct (terminal.Start t1) as [[err |] t2]; reflexivity.
Qed.

(** The floors of the stored size; the inner height is an [int] of at least
    10, so taking the header off it cannot wrap around. *)
Lemma resized_floors (msg : tea.WindowSizeMsg) (d : Dialog T) :
  40 <= width (resized msg d) /\
  10 <= height (resized msg d) /\
  termHeight (resized msg d) = Z.max (height (resized msg d) - 2) 5.
Proof.
  unfold termHeight, resized; cbn [width height].
  repeat split; try lia.
  set (o := GoInt.sub (outerBound _ (tea.Height msg) 4) 2).
  assert (Ho : GoInt.in_range o) by apply wrap_range.
  unfold GoInt.sub, headerHeight. rewrite wrap_in_range; [reflexivity |].
  unfold GoInt.in_range, GoInt.min_int, GoInt.max_int in *. lia.
Qed.

(** C1. Whatever the host width and height, after handleResize the inner
    width is at least 40, the inner height at least 10, and the terminal is
    resized to that width and to the height max(height - 2, 5), which is at
    least 5. *)
Theorem handleResize_floors (msg : tea.WindowSizeMsg) (d : Dialog T) (w : World T) :
  let '(d', _, w') := handleResize msg d w in
  40 <= width d' /\
  10 <= height d' /\
  exists (th : Z) (err : option terminal.error) (rest : list terminal.Call),
    th = Z.max (height d' - 2) 5 /\
    5 <= th /\
    calls w' = calls w ++ terminal.CallResize (width d') th err :: rest.
Proof.
  pose proof (resized_floors msg d) as (Hw & Hh & Hth).
  rewrite handleResize_run.
  destruct (terminal.Resize _ _ (term w)) as [e1 t1].
  assert (Hex : forall rest,
    exists (th : Z) (err : option terminal.error) (rest' : list terminal.Call),
      th = Z.max (height (resized msg d) - 2) 5 /\ 5 <= th /\
      (calls w ++ [terminal.CallResize (width (resized msg d))
                     (termHeight (resized msg d)) e1]) ++ rest
      = calls w ++ terminal.CallResize (width (resized msg d)) th err :: rest').
  { intros rest. exists (termHeight (resized msg d)), e1, rest.
    rewrite <- app_assoc. cbn [app]. repeat split; [exact Hth | lia]. }
  destruct e1 as [err |].
  - repeat split; try assumption.
    specialize (Hex []). rewrite app_nil_r in Hex. exact Hex.
  - destruct (terminal.Started (term w)).
    + repeat split; try assumption.
      specialize (Hex []). rewrite app_nil_r in Hex. exact Hex.
    + destruct (terminal.Start t1) as [[err |] t2];
        (repeat split; try assumption; cbn [calls]; apply Hex).
Qed.

(** C2. After handleResize the dialog is fullscreen exactly when the host
    width is below 120 (for every width, the non-negative ones included):
    119 gives fullscreen, 120 windowed. *)
Theorem handleResize_fullscreen_iff :
  (forall (msg : tea.WindowSizeMsg) (d : Dialog T) (w : World T),
      fullscreen (fst (fst (handleResize msg d w))) = true
      <-> tea.Width msg < 120) /\
  (forall (h : Z) (d : Dialog T) (w : World T),
      fullscreen (fst (fst (handleResize (tea.mkWindowSizeMsg 119 h) d w)))
      = true) /\
  (forall (h : Z) (d : Dialog T) (w : World T),
      fullscreen (fst (fst (handleResize (tea.mkWindowSizeMsg 120 h) d w)))
      = false).
Proof.
  repeat split; intros; rewrite handleResize_dialog in *;
    unfold resized, fullscreenWidthBreakpoint in *; cbn [fullscreen] in *;
    try reflexivity.
  - apply Z.ltb_lt. assumption.
  - apply Z.ltb_lt. assumption.
Qed.

(** C4. On a terminal that is not started: when Resize fails the only call
    is that Resize (Start is not called) and the only command is one error
    report; when Resize succeeds and Start fails the only command is one
    error report; the wait and refresh tasks are issued, both, exactly when
    Resize and Start both succeed. *)
Theorem handleResize_start_errors
  (msg : tea.WindowSizeMsg) (d : Dialog T) (w : World T) :
  terminal.Started (term w) = false ->
  let '(d', cmd, w') := handleResize msg d w in
  let (e1, t1) := terminal.Resize (width d') (termHeight d') (term w) in
  let (e2, t2) := terminal.Start t1 in
  let resize := terminal.CallResize (width d') (termHeight d') e1 in
  match e1, e2 with
  | Some err, _ =>
      calls w' = calls w ++ [resize] /\
      tea.issued cmd = [tea.ReportError err]
  | None, Some err =>
      calls w' = calls w ++ [resize; terminal.CallStart (Some err)] /\
      tea.issued cmd = [tea.ReportError err]
  | None, None =>
      calls w' = calls w ++ [resize; terminal.CallStart None] /\
      tea.issued cmd = [tea.WaitCmd; tea.RefreshCmd]
  end.
Proof.
  intros Hs. rewrite handleResize_run, Hs.
  destruct (terminal.Resize _ _ (term w)) as [[err |] t1] eqn:ER.
  - cbv beta iota zeta. rewrite ER.
    destruct (terminal.Start t1) as [e2 t2]. split; reflexivity.
  - destruct (terminal.Start t1) as [[err |] t2] eqn:ES;
      cbv beta iota zeta; rewrite ER, ES; cbn [calls]; rewrite <- app_assoc;
      split; reflexivity.
Qed.

(** C10, as the code has it. On a terminal that is not started, for every
    host size, zero and negative bounds included, the size computed is
    positive in both dimensions, so the guard holds and the start sequence
    runs: Resize is called with that size and, exactly when it returned no
    error, Start is called next.  The terminal is left as the last of these
    calls left it.  An error of Resize or of Start is reported, and the wait
    and refresh tasks are issued when both succeed. *)
Theorem handleResize_start_sequence
  (msg : tea.WindowSizeMsg) (d : Dialog T) (w : World T) :
  terminal.Started (term w) = false ->
  let '(d', cmd, w') := handleResize msg d w in
  let (e1, t1) := terminal.Resize (width d') (termHeight d') (term w) in
  let (e2, t2) := terminal.Start t1 in
  0 < width d' /\
  0 < termHeight d' /\
  match e1 with
  | Some err =>
      w' = {| term := t1;
              calls := calls w ++
                       [terminal.CallResize (width d') (termHeight d')
                          (Some err)] |} /\
      cmd = Some (tea.ReportError err)
  | None =>
      w' = {| term := t2;
              calls := calls w ++
                       [terminal.CallResize (width d') (termHeight d') None;
                        terminal.CallStart e2] |} /\
      cmd = Some (match e2 with
                  | Some err => tea.ReportError err
                  | None => tea.Batch [tea.WaitCmd; tea.RefreshCmd]
                  end)
  end.
Proof.
  intros Hs. pose proof (resized_floors msg d) as (Hw & Hh & Hth).
  rewrite handleResize_run, Hs.
  destruct (terminal.Resize _ _ (term w)) as [[err |] t1] eqn:ER.
  - cbv beta iota zeta. rewrite ER.
    destruct (terminal.Start t1) as [e2 t2].
    repeat split; lia.
  - destruct (terminal.Start t1) as [[err |] t2] eqn:ES;
      cbv beta iota zeta; rewrite ER, ES; cbn [calls]; rewrite <- app_assoc;
      repeat split; lia.
Qed.

End HandleResize.

(** ** Starting the terminal once *)

Section StartedOnce.

Context {T : Type} {TT : terminal.Terminal T}.

Import termdialog.


(** No call of Start follows one that succeeded, read on the log itself. *)
Lemma startedOnce_split (log l1 l2 : list terminal.Call) :
  terminal.startedOnce log = true ->
  log = l1 ++ terminal.CallStart None :: l2 ->
  forallb (fun c => negb (terminal.isStart c)) l2 = true.
Proof.
  revert log. induction l1 as [| c l1 IH]; intros log Hlog ->.
  - exact Hlog.
  - cbn [app] in Hlog.
    assert (Hcase : terminal.isStartOk c = true \/
                    terminal.startedOnce (l1 ++ terminal.CallStart None :: l2) = true).
    { destruct c as [? ? ? | [?|] | ? | ?]; cbn; auto. }
    destruct Hcase as [Hc | Hrest].
    + destruct c as [? ? ? | [?|] | ? | ?]; try discriminate.
      cbn [terminal.startedOnce] in Hlog.
      rewrite forallb_app in Hlog. cbn in Hlog.
      rewrite andb_false_r in Hlog. discriminate.
    + exact (IH _ Hrest eq_refl).
Qed.



(** The contract of the terminal: resizing a started terminal leaves it
    started, and a Start that succeeds makes it started. *)
Hypothesis Resize_keeps_started :
  forall (cols rows : Z) (t : T),
    terminal.Started t = true ->
    terminal.Started (snd (terminal.Resize cols rows t)) = true.

Hypothesis Start_makes_started :
  forall t : T,
    fst (terminal.Start t) = None ->
    terminal.Started (snd (terminal.Start t)) = true.







End StartedOnce.

(** ** Closing the dialog *)

Section CloseProtocol.

Context {T : Type} {TT : terminal.Terminal T}.

Import termdialog.

(** The completion callback is the one given at construction; resizing
    keeps it. *)
Lemma onClose_New (cfg : Config T) : onClose (New cfg) = OnClose cfg.
Proof. reflexivity. Qed.

Lemma onClose_resized (msg : tea.WindowSizeMsg) (d : Dialog T) :
  onClose (resized msg d) = onClose d.
Proof. reflexivity. Qed.

(** C5. Close calls the terminal's Close, whose error goes nowhere but into
    the log of calls; on the world this leaves it runs the completion
    callback and returns its result, or returns no command when the dialog
    has no callback.  The callback is the one the dialog was constructed
    with: resizing does not change it. *)
Theorem Close_protocol :
  (forall (d : Dialog T) (w : World T),
      let (err, t) := terminal.Close (term w) in
      let w1 := {| term := t; calls := calls w ++ [terminal.CallClose err] |} in
      Close d w =
      match onClose d with
      | Some callback => callback w1
      | None => (None, w1)
      end) /\
  (forall cfg : Config T, onClose (New cfg) = OnClose cfg) /\
  (forall (msg : tea.WindowSizeMsg) (d : Dialog T) (w : World T),
      onClose (fst (fst (handleResize msg d w))) = onClose d).
Proof.
  split; [| split].
  - intros d w. unfold Close, bind, ret, termClose.
    destruct (terminal.Close (term w)) as [err t].
    destruct (onClose d); reflexivity.
  - exact onClose_New.
  - intros msg d w. rewrite handleResize_dialog. apply onClose_resized.
Qed.

End CloseProtocol.

(** ** Position, mouse and cursor *)

Section PositionCursor.

Context {T : Type} {TT : terminal.Terminal T}.

Import termdialog.

Lemma Position_fullscreen (d : Dialog T) :
  fullscreen d = true -> Position d = (0, 0).
Proof. unfold Position. intros ->. reflexivity. Qed.

Lemma Position_nonneg (d : Dialog T) :
  0 <= fst (Position d) /\ 0 <= snd (Position d).
Proof. unfold Position. destruct (fullscreen d); cbn [fst snd]; lia. Qed.

(** Halving with truncation or with rounding down: the same once floored at
    zero. *)
Lemma max_quot_div (a : Z) : Z.max (Z.quot a 2) 0 = Z.max (a / 2) 0.
Proof.
  destruct (Z.le_gt_cases 0 a) as [Ha | Ha].
  - rewrite Z.quot_div_nonneg by lia. reflexivity.
  - assert (Z.quot a 2 <= 0) by (apply Z.quot_le_upper_bound; lia).
    assert (a / 2 < 0) by (apply Z.div_lt_upper_bound; lia).
    lia.
Qed.

Lemma quot_2_in_range (a : Z) : GoInt.in_range a -> GoInt.in_range (Z.quot a 2).
Proof.
  unfold GoInt.in_range, GoInt.min_int, GoInt.max_int. intros Ha.
  destruct (Z.le_gt_cases 0 a) as [H0 | H0].
  - rewrite Z.quot_div_nonneg by lia.
    pose proof (Z.div_pos a 2 H0 ltac:(lia)).
    assert (a / 2 <= a) by (apply Z.div_le_upper_bound; lia). lia.
  - assert (Z.quot a 2 <= 0) by (apply Z.quot_le_upper_bound; lia).
    assert (a <= Z.quot a 2) by (apply Z.quot_le_lower_bound; lia). lia.
Qed.

Lemma Position_windowed (d : Dialog T) :
  fullscreen d = false -> noOverflow d ->
  Position d = (Z.max ((wHeight d - (height d + 2)) / 2) 0,
                Z.max ((wWidth d - (width d + 2)) / 2) 0).
Proof.
  intros Hfs (Hw & Hh & Hdw & Hdh). unfold Position. rewrite Hfs.
  unfold GoInt.quot, GoInt.sub, GoInt.add.
  rewrite (wrap_in_range _ Hw), (wrap_in_range _ Hh).
  rewrite (wrap_in_range _ Hdw), (wrap_in_range _ Hdh).
  rewrite (wrap_in_range _ (quot_2_in_range _ Hdw)).
  rewrite (wrap_in_range _ (quot_2_in_range _ Hdh)).
  rewrite !max_quot_div. reflexivity.
Qed.

(** Position agrees with the specification's wording wherever its
    arithmetic is exact. *)
Lemma Position_PositionSpec (d : Dialog T) :
  noOverflow d -> Position d = PositionSpec d.
Proof.
  intros Hno. unfold PositionSpec.
  destruct (fullscreen d) eqn:Hfs.
  - apply Position_fullscreen. exact Hfs.
  - apply Position_windowed; assumption.
Qed.

(** C7. Position is (0, 0) whenever the dialog is fullscreen; otherwise it
    is row = max((wHeight - (height + 2)) / 2, 0) and
    col = max((wWidth - (width + 2)) / 2, 0), in the arithmetic of [int]
    always, and over the integers as soon as the sums and differences are
    exact; both coordinates are never negative. *)
Theorem Position_centered :
  (forall d : Dialog T, fullscreen d = true -> Position d = (0, 0)) /\
  (forall d : Dialog T,
      fullscreen d = false ->
      Position d
      = (Z.max (GoInt.quot (GoInt.sub (wHeight d) (GoInt.add (height d) 2)) 2) 0,
         Z.max (GoInt.quot (GoInt.sub (wWidth d) (GoInt.add (width d) 2)) 2) 0)) /\
  (forall d : Dialog T,
      fullscreen d = false -> noOverflow d ->
      Position d = (Z.max ((wHeight d - (height d + 2)) / 2) 0,
                    Z.max ((wWidth d - (width d + 2)) / 2) 0)) /\
  (forall d : Dialog T, 0 <= fst (Position d) /\ 0 <= snd (Position d)).
Proof.
  split; [exact Position_fullscreen |].
  split; [intros d Hfs; unfold Position; rewrite Hfs; reflexivity |].
  split; [exact Position_windowed | exact Position_nonneg].
Qed.

(** C6. For every dialog and every point, the adjustment handleMouse applies
    to mouse coordinates and the translation Cursor applies to the
    terminal's cursor undo each other, in both orders. *)
Theorem adjust_cursorScreen_inverse (d : Dialog T) (x y : Z) :
  GoInt.in_range x -> GoInt.in_range y ->
  (let '(x', y') := adjust d x y in cursorScreen d x' y') = (x, y) /\
  (let '(x', y') := cursorScreen d x y in adjust d x' y') = (x, y).
Proof.
  intros Hx Hy. unfold adjust, cursorScreen, headerHeight.
  destruct (Position d) as [row col].
  unfold GoInt.add, GoInt.sub.
  repeat match goal with
    | |- context [GoInt.wrap ?b] =>
        match b with
        | context [GoInt.wrap ?a] =>
            lazymatch a with
            | context [GoInt.wrap _] => fail
            | _ => let k := fresh "k" in destruct (wrap_multiple a) as [k ->]
            end
        end
    end.
  repeat match goal with
    | |- context [GoInt.wrap ?b] =>
        lazymatch b with
        | context [_ * 2 ^ 64] =>
            let K := multiples b in
            first [ replace b with (x + K * 2 ^ 64) by lia
                  | replace b with (y + K * 2 ^ 64) by lia ];
            rewrite wrap_shift
        end
    end.
  rewrite !(wrap_in_range x Hx), !(wrap_in_range y Hy). split; reflexivity.
Qed.

(** Cursor draws the terminal's cursor at its [cursorScreen] cell, and
    handleMouse forwards a mouse event at its [adjust]ed cell. *)
Lemma Cursor_cursorScreen {color : Type} (secondary : color)
  (d : Dialog T) (w : World T) :
  let '(x, y) := terminal.CursorPosition (term w) in
  Cursor secondary d w =
  (if (x <? 0) || (y <? 0) then None
   else Some {| tea.X := fst (cursorScreen d x y);
                tea.Y := snd (cursorScreen d x y);
                tea.Color := secondary;
                tea.Shape := tea.CursorBlock;
                tea.Blink := true |},
   w).
Proof.
  unfold Cursor, bind, ret, termCursorPosition, cursorScreen.
  destruct (terminal.CursorPosition (term w)) as [x y].
  destruct ((x <? 0) || (y <? 0)); [reflexivity |].
  destruct (Position d) as [row col]. reflexivity.
Qed.

Lemma handleMouse_adjust (m : terminal.Mouse) (d : Dialog T) (w : World T) :
  calls (snd (handleMouse (terminal.MouseClickMsg m) d w))
  = calls w ++
    [terminal.CallSendMouse
       (terminal.MouseClickMsg
          {| terminal.X := fst (adjust d (terminal.X m) (terminal.Y m));
             terminal.Y := snd (adjust d (terminal.X m) (terminal.Y m));
             terminal.Button := terminal.Button m;
             terminal.Mod := terminal.Mod m |})].
Proof.
  unfold handleMouse, bind, ret, termSendMouse, adjustMouse. cbn [snd calls].
  destruct (adjust d (terminal.X m) (terminal.Y m)). reflexivity.
Qed.

End PositionCursor.

(** ** The size of the windowed dialog *)

Section Windowed.

Context {T : Type} {TT : terminal.Terminal T}.

Import termdialog.

(** On host bounds up to 4096, negative ones included, the scaling is 85%
    exactly, rounded toward zero. *)
Lemma scale85_percent (n : Z) :
  - 4096 <= n <= 4096 -> scale85 n = Z.quot (85 * n) 100.
Proof.
  intros Hn.
  assert (H : forallb (fun k => let n := Z.of_nat k - 4096 in
                               scale85 n =? Z.quot (85 * n) 100)
                (seq 0 (Z.to_nat 8193)) = true) by (vm_compute; reflexivity).
  rewrite forallb_forall in H.
  specialize (H (Z.to_nat (n + 4096))). cbv zeta in H.
  rewrite Z2Nat.id in H by lia.
  replace (n + 4096 - 4096) with n in H by lia.
  apply Z.eqb_eq, H, in_seq. lia.
Qed.

Lemma scale85_200 : scale85 200 = 170.
Proof. vm_compute. reflexivity. Qed.

Lemma scale85_60 : scale85 60 = 51.
Proof. vm_compute. reflexivity. Qed.

Lemma resized_windowed (msg : tea.WindowSizeMsg) (d : Dialog T) :
  GoInt.in_range (tea.Width msg) -> GoInt.in_range (tea.Height msg) ->
  120 <= tea.Width msg ->
  let d' := resized msg d in
  fullscreen d' = false /\
  40 <= width d' <= tea.Width msg - 8 /\
  (16 <= tea.Height msg -> 10 <= height d' <= tea.Height msg - 6) /\
  (GoInt.min_int + 6 <= tea.Height msg < 16 -> height d' = 10).
Proof.
  intros HW HH H120.
  pose proof (scale85_bounds _ HW) as [HsW _].
  pose proof (scale85_bounds _ HH) as [HsH HsH'].
  unfold GoInt.in_range, GoInt.min_int, GoInt.max_int in *.
  assert (Hr : forall z, - 2 ^ 63 <= z <= 2 ^ 63 - 1 -> GoInt.wrap z = z)
    by (intros z Hz; apply wrap_in_range; exact Hz).
  unfold resized, fullscreenWidthBreakpoint, outerBound.
  cbn [fullscreen width height].
  replace (tea.Width msg <? 120) with false by (symmetry; apply Z.ltb_ge; lia).
  unfold GoInt.sub.
  split; [reflexivity |]. split; [| split].
  - rewrite (Hr (tea.Width msg - 6)) by lia.
    rewrite (Hr (Z.min _ _ - 2)) by lia. lia.
  - intros H16.
    rewrite (Hr (tea.Height msg - 4)) by lia.
    rewrite (Hr (Z.min _ _ - 2)) by lia. lia.
  - intros Hsmall.
    rewrite (Hr (tea.Height msg - 4)) by lia.
    rewrite (Hr (Z.min _ _ - 2)) by lia. lia.
Qed.

(** The dialogs handleResize leaves for host sizes that are [int]s, of
    height above [- 2 ^ 62], are those where Position is exact, so there
    Position is what the specification words. *)
Lemma resized_noOverflow (msg : tea.WindowSizeMsg) (d : Dialog T) :
  GoInt.in_range (tea.Width msg) -> GoInt.in_range (tea.Height msg) ->
  - 2 ^ 62 <= tea.Height msg ->
  Position (resized msg d) = PositionSpec (resized msg d).
Proof.
  intros HW HH Hlow.
  destruct (fullscreen (resized msg d)) eqn:Hfs.
  - unfold PositionSpec. rewrite Hfs. apply Position_fullscreen. exact Hfs.
  - apply Position_PositionSpec.
    assert (H120 : 120 <= tea.Width msg).
    { unfold resized, fullscreenWidthBreakpoint in Hfs. cbn [fullscreen] in Hfs.
      apply Z.ltb_ge in Hfs. exact Hfs. }
    pose proof (resized_windowed msg d HW HH H120) as (_ & Hw & Hh16 & Hh10).
    assert (Hint : wWidth (resized msg d) = tea.Width msg /\
                   wHeight (resized msg d) = tea.Height msg) by (split; reflexivity).
    destruct Hint as [EW EH].
    unfold noOverflow. rewrite EW, EH.
    unfold GoInt.in_range, GoInt.min_int, GoInt.max_int in *.
    destruct (Z.le_gt_cases 16 (tea.Height msg)) as [H16 | H16].
    + specialize (Hh16 H16). lia.
    + rewrite Hh10 by lia. lia.
Qed.

(** C8, as the code has it. In windowed mode (host width at least 120, host
    sizes being [int]s) the outer width, inner width plus 2, never exceeds
    the host width less 6; the outer height never exceeds the host height
    less 4 when the host height is at least 16; below 16 the floor of 10 on
    the inner height decides and the outer height is 12. *)
Theorem windowed_outer_size
  (msg : tea.WindowSizeMsg) (d : Dialog T) (w : World T) :
  GoInt.in_range (tea.Width msg) -> GoInt.in_range (tea.Height msg) ->
  120 <= tea.Width msg ->
  let d' := fst (fst (handleResize msg d w)) in
  fullscreen d' = false /\
  width d' + 2 <= tea.Width msg - 6 /\
  (16 <= tea.Height msg -> height d' + 2 <= tea.Height msg - 4) /\
  (GoInt.min_int + 6 <= tea.Height msg < 16 -> height d' + 2 = 12).
Proof.
  intros HW HH H120. cbv zeta. rewrite handleResize_dialog.
  pose proof (resized_windowed msg d HW HH H120) as (Hfs & Hw & Hh16 & Hh10).
  split; [exact Hfs |]. split; [lia |]. split.
  - intros H16. specialize (Hh16 H16). lia.
  - intros Hsmall. rewrite (Hh10 Hsmall). reflexivity.
Qed.

(** C9, as the code has it. For host bounds 200 x 60 the dialog is windowed
    with inner dimensions 168 x 49, the terminal is given 168 x 47, and
    Position is row (60 - 51) / 2 = 4 and col (200 - 170) / 2 = 15. *)
Theorem handleResize_200_60 (d : Dialog T) (w : World T) :
  let d' := fst (fst (handleResize (tea.mkWindowSizeMsg 200 60) d w)) in
  fullscreen d' = false /\
  width d' = 168 /\
  height d' = 49 /\
  termHeight d' = 47 /\
  Position d' = (4, 15).
Proof.
  cbv zeta. rewrite handleResize_dialog.
  unfold Position, termHeight, resized, outerBound. cbn [tea.Width tea.Height].
  cbn [fullscreen width height wWidth wHeight].
  replace (200 <? fullscreenWidthBreakpoint) with false by reflexivity.
  rewrite scale85_200, scale85_60. repeat split.
Qed.

End Windowed.

(** ** The properties at work on the scripted terminal *)

Section Scripted.

Import termdialog.




(** Counterexample to C8 as stated: on a 120 x 10 host the dialog is windowed and its
    outer height, 12, exceeds the host height less 4. *)
Lemma windowed_outer_exceeds_small_host :
  fullscreen (fst (fst (handleResize (tea.mkWindowSizeMsg 120 10)
                          scripted.dialog
                          (scripted.world (scripted.fresh 0 0 None)))))
  = false /\
  ~ (height (fst (fst (handleResize (tea.mkWindowSizeMsg 120 10)
                         scripted.dialog
                         (scripted.world (scripted.fresh 0 0 None))))) + 2
     <= 10 - 4).
Proof.
  split.
  - vm_compute. reflexivity.
  - vm_compute. intros H. apply H. reflexivity.
Qed.

(** Counterexample to C9 as stated: on a 200 x 60 host the inner height is 49, not 47,
    and the row is 4, not 5. *)
Lemma handleResize_200_60_not_47_5 :
  ~ (width (fst (fst (handleResize (tea.mkWindowSizeMsg 200 60)
                        scripted.dialog
                        (scripted.world (scripted.fresh 0 0 None))))) = 168 /\
     height (fst (fst (handleResize (tea.mkWindowSizeMsg 200 60)
                         scripted.dialog
                         (scripted.world (scripted.fresh 0 0 None))))) = 47 /\
     Position (fst (fst (handleResize (tea.mkWindowSizeMsg 200 60)
                           scripted.dialog
                           (scripted.world (scripted.fresh 0 0 None)))))
     = (5, 15)).
Proof.
  intros (_ & H & _). vm_compute in H. discriminate H.
Qed.

(** Counterexample to C10 as stated: the terminal that is not started is not
    always started.  When Resize fails Start is not called, and when Start
    fails the terminal stays not started. *)
Lemma Resize_failure_skips_Start :
  terminal.Started (term (scripted.world (scripted.fresh 1 0 None))) = false /\
  (calls (snd (handleResize (tea.mkWindowSizeMsg 0 (-5)) scripted.dialog
                 (scripted.world (scripted.fresh 1 0 None))))
   = [terminal.CallResize 40 8 (Some "resize failed"%string)] /\
   terminal.Started
     (term (snd (handleResize (tea.mkWindowSizeMsg 0 (-5)) scripted.dialog
                   (scripted.world (scripted.fresh 1 0 None)))))
   = false) /\
  (calls (snd (handleResize (tea.mkWindowSizeMsg 0 (-5)) scripted.dialog
                 (scripted.world (scripted.fresh 0 1 None))))
   = [terminal.CallResize 40 8 None;
      terminal.CallStart (Some "start failed"%string)] /\
   terminal.Started
     (term (snd (handleResize (tea.mkWindowSizeMsg 0 (-5)) scripted.dialog
                   (scripted.world (scripted.fresh 0 1 None)))))
   = false) /\
  ~ (forall t : scripted.Term,
       terminal.Started t = false ->
       existsb terminal.isStart
         (calls (snd (handleResize (tea.mkWindowSizeMsg 0 (-5)) scripted.dialog
                        (scripted.world t)))) = true /\
       terminal.Started
         (term (snd (handleResize (tea.mkWindowSizeMsg 0 (-5)) scripted.dialog
                       (scripted.world t)))) = true).
Proof.
  split; [reflexivity |].
  split; [split; vm_compute; reflexivity |].
  split; [split; vm_compute; reflexivity |].
  intros H. destruct (H (scripted.fresh 1 0 None) eq_refl) as [Hcall _].
  vm_compute in Hcall. discriminate Hcall.
Qed.


(** Witness of C4, with a Start that fails: one Resize, one Start, one error report. *)
Lemma handleResize_start_errors_witness :
  terminal.Started (term (scripted.world (scripted.fresh 0 1 None))) = false /\
  calls (snd (handleResize (tea.mkWindowSizeMsg 200 60) scripted.dialog
                (scripted.world (scripted.fresh 0 1 None))))
  = [terminal.CallResize 168 47 None;
     terminal.CallStart (Some "start failed"%string)] /\
  tea.issued (snd (fst (handleResize (tea.mkWindowSizeMsg 200 60)
                          scripted.dialog
                          (scripted.world (scripted.fresh 0 1 None)))))
  = [tea.ReportError "start failed"%string].
Proof.
  split; [reflexivity |].
  exact (handleResize_start_errors (tea.mkWindowSizeMsg 200 60) scripted.dialog
           (scripted.world (scripted.fresh 0 1 None)) eq_refl).
Defined.

(** Witness of C6, at the point (100, 30) of the windowed dialog. *)
Lemma adjust_cursorScreen_inverse_witness :
  GoInt.in_range 100 /\ GoInt.in_range 30 /\
  (let '(x', y') := adjust (resized (tea.mkWindowSizeMsg 200 60) scripted.dialog)
                      100 30 in
   cursorScreen (resized (tea.mkWindowSizeMsg 200 60) scripted.dialog) x' y')
  = (100, 30) /\
  (let '(x', y') := cursorScreen (resized (tea.mkWindowSizeMsg 200 60)
                                    scripted.dialog) 100 30 in
   adjust (resized (tea.mkWindowSizeMsg 200 60) scripted.dialog) x' y')
  = (100, 30).
Proof.
  assert (H100 : GoInt.in_range 100) by (unfold GoInt.in_range; cbn; lia).
  assert (H30 : GoInt.in_range 30) by (unfold GoInt.in_range; cbn; lia).
  split; [exact H100 |]. split; [exact H30 |].
  exact (adjust_cursorScreen_inverse
           (resized (tea.mkWindowSizeMsg 200 60) scripted.dialog) 100 30 H100 H30).
Defined.

(** Witness of C7, on a fullscreen dialog (host 100 x 30) and on a windowed one. *)
Lemma Position_centered_witness :
  (fullscreen (resized (tea.mkWindowSizeMsg 100 30) scripted.dialog) = true /\
   Position (resized (tea.mkWindowSizeMsg 100 30) scripted.dialog) = (0, 0)) /\
  (fullscreen (resized (tea.mkWindowSizeMsg 200 60) scripted.dialog) = false /\
   noOverflow (resized (tea.mkWindowSizeMsg 200 60) scripted.dialog) /\
   Position (resized (tea.mkWindowSizeMsg 200 60) scripted.dialog)
   = (Z.max ((60 - (49 + 2)) / 2) 0, Z.max ((200 - (168 + 2)) / 2) 0)).
Proof.
  assert (Hno : noOverflow (resized (tea.mkWindowSizeMsg 200 60) scripted.dialog)).
  { unfold noOverflow, GoInt.in_range.
    repeat split; vm_compute; discriminate. }
  split.
  - split; [reflexivity |].
    exact (proj1 Position_centered
             (resized (tea.mkWindowSizeMsg 100 30) scripted.dialog) eq_refl).
  - split; [vm_compute; reflexivity |]. split; [exact Hno |].
    exact (proj1 (proj2 (proj2 Position_centered))
             (resized (tea.mkWindowSizeMsg 200 60) scripted.dialog)
             (eq_refl : fullscreen (resized (tea.mkWindowSizeMsg 200 60)
                                      scripted.dialog) = false)
             Hno).
Defined.

(** Witness of C8, on a 200 x 60 host and on a 120 x 10 host where the floor
    decides. *)
Lemma windowed_outer_size_witness :
  (GoInt.in_range 200 /\ GoInt.in_range 60 /\ 120 <= 200 /\ 16 <= 60 /\
   168 + 2 <= 200 - 6 /\ 49 + 2 <= 60 - 4) /\
  (GoInt.in_range 120 /\ GoInt.in_range 10 /\ 120 <= 120 /\
   GoInt.min_int + 6 <= 10 < 16 /\
   height (fst (fst (handleResize (tea.mkWindowSizeMsg 120 10) scripted.dialog
                       (scripted.world (scripted.fresh 0 0 None))))) + 2 = 12).
Proof.
  assert (R : forall z, - 2 ^ 63 <= z <= 2 ^ 63 - 1 -> GoInt.in_range z)
    by (intros z Hz; exact Hz).
  assert (H200 : GoInt.in_range 200) by (apply R; lia).
  assert (H60 : GoInt.in_range 60) by (apply R; lia).
  assert (H120 : GoInt.in_range 120) by (apply R; lia).
  assert (H10 : GoInt.in_range 10) by (apply R; lia).
  assert (Ha : 120 <= 200) by lia.
  assert (Hb : 16 <= 60) by lia.
  assert (Hc : 120 <= 120) by lia.
  assert (Hd : GoInt.min_int + 6 <= 10 < 16) by (unfold GoInt.min_int; lia).
  split.
  - split; [exact H200 |]. split; [exact H60 |]. split; [exact Ha |].
    split; [exact Hb |].
    pose proof (windowed_outer_size (tea.mkWindowSizeMsg 200 60) scripted.dialog
                  (scripted.world (scripted.fresh 0 0 None)) H200 H60 Ha)
      as (_ & Hw & Hh & _).
    split; [exact Hw | exact (Hh Hb)].
  - split; [exact H120 |]. split; [exact H10 |]. split; [exact Hc |].
    split; [exact Hd |].
    pose proof (windowed_outer_size (tea.mkWindowSizeMsg 120 10) scripted.dialog
                  (scripted.world (scripted.fresh 0 0 None)) H120 H10 Hc)
      as (_ & _ & _ & Hsmall).
    exact (Hsmall Hd).
Defined.

(** Witness of C10, on a host of width 0 and height -5: the terminal is resized to
    40 x 8 and Start is called, and when Resize fails Start is not called. *)
Lemma handleResize_start_sequence_witness :
  terminal.Started (term (scripted.world (scripted.fresh 0 0 None))) = false /\
  terminal.Started (term (scripted.world (scripted.fresh 1 0 None))) = false /\
  (0 < 40 /\ 0 < 8 /\
   snd (handleResize (tea.mkWindowSizeMsg 0 (-5)) scripted.dialog
          (scripted.world (scripted.fresh 0 0 None)))
   = {| term := snd (terminal.Start
                       (snd (terminal.Resize 40 8 (scripted.fresh 0 0 None))));
        calls := [terminal.CallResize 40 8 None; terminal.CallStart None] |} /\
   snd (fst (handleResize (tea.mkWindowSizeMsg 0 (-5)) scripted.dialog
               (scripted.world (scripted.fresh 0 0 None))))
   = Some (tea.Batch [tea.WaitCmd; tea.RefreshCmd])) /\
  (0 < 40 /\ 0 < 8 /\
   snd (handleResize (tea.mkWindowSizeMsg 0 (-5)) scripted.dialog
          (scripted.world (scripted.fresh 1 0 None)))
   = {| term := snd (terminal.Resize 40 8 (scripted.fresh 1 0 None));
        calls := [terminal.CallResize 40 8 (Some "resize failed"%string)] |} /\
   snd (fst (handleResize (tea.mkWindowSizeMsg 0 (-5)) scripted.dialog
               (scripted.world (scripted.fresh 1 0 None))))
   = Some (tea.ReportError "resize failed"%string)).
Proof.
  split; [reflexivity |]. split; [reflexivity |]. split.
  - exact (handleResize_start_sequence (tea.mkWindowSizeMsg 0 (-5))
             scripted.dialog (scripted.world (scripted.fresh 0 0 None)) eq_refl).
  - exact (handleResize_start_sequence (tea.mkWindowSizeMsg 0 (-5))
             scripted.dialog (scripted.world (scripted.fresh 1 0 None)) eq_refl).
Defined.

(** The same run, evaluated. *)
Lemma handleResize_zero_negative :
  calls (snd (handleResize (tea.mkWindowSizeMsg 0 (-5)) scripted.dialog
                (scripted.world (scripted.fresh 0 0 None))))
  = [terminal.CallResize 40 8 None; terminal.CallStart None].
Proof. vm_compute. reflexivity. Qed.

End Scripted.

(** ** More on the geometry handleResize stores *)

Section MoreGeometry.

Context {T : Type} {TT : terminal.Terminal T}.

Import termdialog.

(** The geometry handleResize stores is a function of the message alone: not
    of the dialog it is given, nor of the terminal, started or not, nor of
    Resize or Start failing.  Handling the same message again, in any world,
    leaves the dialog as it is. *)
Theorem handleResize_geometry_of_message
  (msg : tea.WindowSizeMsg) (d1 d2 : Dialog T) (w1 w2 : World T) :
  let a := fst (fst (handleResize msg d1 w1)) in
  let b := fst (fst (handleResize msg d2 w2)) in
  (wWidth a, wHeight a, width a, height a, fullscreen a)
  = (wWidth b, wHeight b, width b, height b, fullscreen b) /\
  Position a = Position b /\
  fst (fst (handleResize msg a w2)) = a.
Proof.
  cbv zeta. rewrite !handleResize_dialog.
  split; [reflexivity |]. split; reflexivity.
Qed.

(** The terminal is always resized to the inner height less the 2 rows of
    the header, which is at least 8: the floor of 5 on the terminal height
    never applies. *)
Theorem handleResize_terminal_height
  (msg : tea.WindowSizeMsg) (d : Dialog T) (w : World T) :
  let '(d', _, w') := handleResize msg d w in
  8 <= height d' - 2 /\
  exists (err : option terminal.error) (rest : list terminal.Call),
    calls w' = calls w ++
               terminal.CallResize (width d') (height d' - 2) err :: rest.
Proof.
  pose proof (resized_floors msg d) as (Hw & Hh & Hth).
  assert (Eth : termHeight (resized msg d) = height (resized msg d) - 2) by lia.
  rewrite handleResize_run. rewrite Eth.
  destruct (terminal.Resize _ _ (term w)) as [[err |] t1].
  - split; [lia |]. exists (Some err), []. reflexivity.
  - destruct (terminal.Started (term w)).
    + split; [lia |]. exists None, []. reflexivity.
    + destruct (terminal.Start t1) as [e2 t2].
      assert (Hcalls :
        calls w ++ [terminal.CallResize (width (resized msg d))
                      (height (resized msg d) - 2) None] ++ [terminal.CallStart e2]
        = calls w ++ terminal.CallResize (width (resized msg d))
                       (height (resized msg d) - 2) None :: [terminal.CallStart e2])
        by reflexivity.
      destruct e2 as [err |]; cbn [calls]; rewrite <- app_assoc;
        (split; [lia |]); exists None; eexists; reflexivity.
Qed.

(** Windowed mode on a host of height at least 16 (host sizes being [int]s):
    the bordered dialog lies inside the host window with at least 3 free
    columns on each side and at least 2 free rows above and below. *)
Theorem windowed_margins
  (msg : tea.WindowSizeMsg) (d : Dialog T) (w : World T) :
  GoInt.in_range (tea.Width msg) -> GoInt.in_range (tea.Height msg) ->
  120 <= tea.Width msg -> 16 <= tea.Height msg ->
  let d' := fst (fst (handleResize msg d w)) in
  let '(row, col) := Position d' in
  3 <= col /\ col + (width d' + 2) + 3 <= tea.Width msg /\
  2 <= row /\ row + (height d' + 2) + 2 <= tea.Height msg.
Proof.
  intros HW HH H120 H16. cbv zeta. rewrite handleResize_dialog.
  pose proof (resized_windowed msg d HW HH H120) as (Hfs & Hw & Hh16 & _).
  specialize (Hh16 H16).
  rewrite resized_noOverflow
    by (try assumption; unfold GoInt.in_range, GoInt.min_int in *; lia).
  unfold PositionSpec. rewrite Hfs.
  change (wHeight (resized msg d)) with (tea.Height msg).
  change (wWidth (resized msg d)) with (tea.Width msg).
  set (wd := width (resized msg d)) in *.
  set (ht := height (resized msg d)) in *.
  pose proof (Z.div_mod (tea.Width msg - (wd + 2)) 2 ltac:(lia)).
  pose proof (Z.mod_pos_bound (tea.Width msg - (wd + 2)) 2 ltac:(lia)).
  pose proof (Z.div_mod (tea.Height msg - (ht + 2)) 2 ltac:(lia)).
  pose proof (Z.mod_pos_bound (tea.Height msg - (ht + 2)) 2 ltac:(lia)).
  lia.
Qed.

(** Fullscreen mode on a host at least 42 wide and 12 high: the bordered
    dialog covers the host window exactly, from the origin. *)
Theorem fullscreen_fills_host
  (msg : tea.WindowSizeMsg) (d : Dialog T) (w : World T) :
  GoInt.in_range (tea.Height msg) ->
  42 <= tea.Width msg < 120 -> 12 <= tea.Height msg ->
  let d' := fst (fst (handleResize msg d w)) in
  fullscreen d' = true /\
  Position d' = (0, 0) /\
  width d' + 2 = tea.Width msg /\
  height d' + 2 = tea.Height msg.
Proof.
  intros HH HW H12. cbv zeta. rewrite handleResize_dialog.
  assert (Hfs : fullscreen (resized msg d) = true).
  { unfold resized, fullscreenWidthBreakpoint. cbn [fullscreen].
    apply Z.ltb_lt. lia. }
  split; [exact Hfs |]. split; [apply Position_fullscreen; exact Hfs |].
  unfold resized, outerBound, fullscreenWidthBreakpoint. cbn [width height].
  replace (tea.Width msg <? 120) with true by (symmetry; apply Z.ltb_lt; lia).
  unfold GoInt.sub, GoInt.in_range, GoInt.min_int, GoInt.max_int in *.
  rewrite !wrap_in_range
    by (unfold GoInt.in_range, GoInt.min_int, GoInt.max_int; lia).
  lia.
Qed.

(** On a host narrower than 42 columns the floor of 40 on the inner width
    makes the bordered dialog, 42 wide, wider than the host. *)
Theorem narrow_host_overflows
  (msg : tea.WindowSizeMsg) (d : Dialog T) (w : World T) :
  GoInt.min_int + 2 <= tea.Width msg < 42 ->
  let d' := fst (fst (handleResize msg d w)) in
  fullscreen d' = true /\
  width d' + 2 = 42 /\
  tea.Width msg < width d' + 2.
Proof.
  intros HW. cbv zeta. rewrite handleResize_dialog.
  unfold resized, outerBound, fullscreenWidthBreakpoint. cbn [fullscreen width].
  replace (tea.Width msg <? 120) with true by (symmetry; apply Z.ltb_lt; lia).
  unfold GoInt.sub, GoInt.min_int in *.
  rewrite wrap_in_range
    by (unfold GoInt.in_range, GoInt.min_int, GoInt.max_int; lia).
  split; [reflexivity |]. lia.
Qed.

(** Windowed mode on hosts up to 4096 x 4096, at least 16 high: the inner
    width is 85% of the host width, rounded down, less 2 (neither the cap
    nor the floor applies to it); the inner height is 85% of the host
    height, rounded down, less 2 from height 27 on, and the host height
    less 6 below, where the cap of host height less 4 applies. *)
Theorem windowed_size_85_percent
  (msg : tea.WindowSizeMsg) (d : Dialog T) (w : World T) :
  120 <= tea.Width msg <= 4096 -> 16 <= tea.Height msg <= 4096 ->
  let d' := fst (fst (handleResize msg d w)) in
  width d' = 85 * tea.Width msg / 100 - 2 /\
  (27 <= tea.Height msg -> height d' = 85 * tea.Height msg / 100 - 2) /\
  (tea.Height msg <= 26 -> height d' = tea.Height msg - 6).
Proof.
  intros HW HH. cbv zeta. rewrite handleResize_dialog.
  unfold resized, outerBound, fullscreenWidthBreakpoint. cbn [width height].
  replace (tea.Width msg <? 120) with false by (symmetry; apply Z.ltb_ge; lia).
  rewrite !scale85_percent by lia.
  rewrite !Z.quot_div_nonneg by lia.
  unfold GoInt.sub.
  rewrite (wrap_in_range (tea.Width msg - 6))
    by (unfold GoInt.in_range, GoInt.min_int, GoInt.max_int; lia).
  rewrite (wrap_in_range (tea.Height msg - 4))
    by (unfold GoInt.in_range, GoInt.min_int, GoInt.max_int; lia).
  pose proof (Z.div_mod (85 * tea.Width msg) 100 ltac:(lia)).
  pose proof (Z.mod_pos_bound (85 * tea.Width msg) 100 ltac:(lia)).
  pose proof (Z.div_mod (85 * tea.Height msg) 100 ltac:(lia)).
  pose proof (Z.mod_pos_bound (85 * tea.Height msg) 100 ltac:(lia)).
  rewrite !wrap_in_range
    by (unfold GoInt.in_range, GoInt.min_int, GoInt.max_int; lia).
  repeat split; intros; lia.
Qed.

(** [int(float64(n) * 0.85)] is defined for every [int] n: the product is a
    finite float whose integer part is an [int], of the sign of [n] and no
    larger than [n] in magnitude; the conversion never falls to the value
    the language leaves to the implementation. *)
Theorem scale85_defined (n : Z) :
  GoInt.in_range n ->
  Float64.trunc (Float64.mul (Float64.of_int n) Float64.c0_85)
  = Some (scale85 n) /\
  GoInt.in_range (scale85 n) /\
  Z.abs (scale85 n) <= Z.abs n /\
  0 <= scale85 n * n.
Proof.
  intros Hn. pose proof (scale85_bounds n Hn) as [Hpos Hneg].
  assert (Hrange : GoInt.in_range (scale85 n) /\ Z.abs (scale85 n) <= Z.abs n /\
                   0 <= scale85 n * n).
  { unfold GoInt.in_range, GoInt.min_int, GoInt.max_int in *.
    destruct (Z.le_gt_cases 0 n) as [H0 | H0].
    - specialize (Hpos H0). repeat split; (lia || nia).
    - specialize (Hneg ltac:(lia)). repeat split; (lia || nia). }
  split; [| exact Hrange].
  unfold GoInt.in_range, GoInt.min_int, GoInt.max_int in Hn.
  unfold scale85, Float64.to_int, Float64.of_int, binary_normalize.
  destruct n as [| p | p].
  - reflexivity.
  - destruct (trunc_scale_bound false p ltac:(lia)) as (v & Hv & Hb).
    unfold Float64.prec, Float64.emax. rewrite Hv.
    replace (GoInt.in_rangeb v) with true; [reflexivity |].
    symmetry. apply in_rangeb_spec.
    unfold GoInt.in_range, GoInt.min_int, GoInt.max_int. lia.
  - destruct (trunc_scale_bound true p ltac:(lia)) as (v & Hv & Hb).
    unfold Float64.prec, Float64.emax. rewrite Hv.
    replace (GoInt.in_rangeb (- v)) with true; [reflexivity |].
    symmetry. apply in_rangeb_spec.
    unfold GoInt.in_range, GoInt.min_int, GoInt.max_int. lia.
Qed.

(** For the dialogs handleResize leaves (host sizes being [int]s, the height
    above [- 2 ^ 62]) no sum or difference of Position wraps around:
    Position is the centring formula over the integers. *)
Theorem Position_exact_after_resize
  (msg : tea.WindowSizeMsg) (d : Dialog T) (w : World T) :
  GoInt.in_range (tea.Width msg) -> GoInt.in_range (tea.Height msg) ->
  - 2 ^ 62 <= tea.Height msg ->
  let d' := fst (fst (handleResize msg d w)) in
  Position d' = PositionSpec d'.
Proof.
  intros HW HH Hlow. cbv zeta. rewrite handleResize_dialog.
  apply resized_noOverflow; assumption.
Qed.

End MoreGeometry.

(** ** Routing of messages *)

Section Routing.

Context {T : Type} {TT : terminal.Terminal T} {TI : router.TerminalInput T}.

Import termdialog.
Import router.

Lemma handleMouse_run
  (msg : terminal.MouseMsg) (d : Dialog T) (w : World T) :
  exists ev : terminal.MouseMsg,
    handleMouse msg d w
    = ((d, None),
       {| term := terminal.SendMouse ev (term w);
          calls := calls w ++ [terminal.CallSendMouse ev] |}).
Proof. destruct msg as [m | m | m | m]; eexists; reflexivity. Qed.

(** handleMouse forwards one event and does nothing else: the event is of
    the type of the one received, with its button and modifiers, at the
    adjusted coordinates; the dialog is as it was and no command comes
    back. *)
Theorem handleMouse_forwards_one
  (msg : terminal.MouseMsg) (d : Dialog T) (w : World T) :
  exists ev : terminal.MouseMsg,
    handleMouse msg d w
    = ((d, None),
       {| term := terminal.SendMouse ev (term w);
          calls := calls w ++ [terminal.CallSendMouse ev] |}) /\
    mouseKind ev = mouseKind msg /\
    terminal.Button (mouseOf ev) = terminal.Button (mouseOf msg) /\
    terminal.Mod (mouseOf ev) = terminal.Mod (mouseOf msg) /\
    (terminal.X (mouseOf ev), terminal.Y (mouseOf ev))
    = adjust d (terminal.X (mouseOf msg)) (terminal.Y (mouseOf msg)).
Proof.
  destruct msg as [m | m | m | m];
    [exists (terminal.MouseClickMsg (adjustMouse d m))
    | exists (terminal.MouseReleaseMsg (adjustMouse d m))
    | exists (terminal.MouseWheelMsg (adjustMouse d m))
    | exists (terminal.MouseMotionMsg (adjustMouse d m))];
    (split; [reflexivity |]); cbn [mouseKind mouseOf];
    unfold adjustMouse;
    destruct (adjust d (terminal.X m) (terminal.Y m)); repeat split.
Qed.

Lemma handleKey_run (msg : KeyPressMsg) (d : Dialog T) (w : World T) :
  handleKey msg d w
  = ((d, None), {| term := forwardKey (term w) msg; calls := calls w |}).
Proof.
  unfold handleKey, forwardKey, bind, ret, termSendText, termSendKey.
  destruct (String.eqb (Text msg) EmptyString); reflexivity.
Qed.

Lemma world_eta (w : World T) : {| term := term w; calls := calls w |} = w.
Proof. destruct w. reflexivity. Qed.

(** Only a window-size message changes the dialog, resizes the terminal,
    starts it or closes it: any other message leaves the dialog as it is,
    and of the logged calls makes none, but for a mouse message, which makes
    the one call of SendMouse. *)
Theorem Update_keeps_dialog (msg : Msg) (d : Dialog T) (w : World T) :
  isWindowSizeMsg msg = false ->
  let '(d', _, w') := Update msg d w in
  d' = d /\
  match msg with
  | MouseMsg _ =>
      exists ev : terminal.MouseMsg,
        calls w' = calls w ++ [terminal.CallSendMouse ev]
  | _ => calls w' = calls w
  end.
Proof.
  intros Hmsg. destruct msg as [m | | | k | s | m |]; try discriminate;
    cbn [Update].
  - split; reflexivity.
  - unfold bind, ret, termClosed.
    destruct (Closed (term w)); split; reflexivity.
  - rewrite handleKey_run. split; reflexivity.
  - split; reflexivity.
  - destruct (handleMouse_run m d w) as (ev & Hrun).
    rewrite Hrun. split; [reflexivity |]. exists ev. reflexivity.
  - split; reflexivity.
Qed.

Lemma updates_cons (msg : Msg) (msgs : list Msg) (d : Dialog T) (w : World T) :
  updates (msg :: msgs) d w
  = let '(d1, c1, w1) := Update msg d w in
    let '(d2, cs, w2) := updates msgs d1 w1 in
    (d2, c1 :: cs, w2).
Proof.
  cbn [updates]. unfold bind, ret.
  destruct (Update msg d w) as [[d1 c1] w1]. cbn [fst snd].
  destruct (updates msgs d1 w1) as [[d2 cs] w2]. reflexivity.
Qed.

Lemma Update_dialog (msg : Msg) (d : Dialog T) (w : World T) :
  fst (fst (Update msg d w))
  = match msg with WindowSizeMsg m => resized m d | _ => d end.
Proof.
  destruct msg as [m | | | k | s | m |]; cbn [Update]; try reflexivity.
  - apply handleResize_dialog.
  - unfold bind, ret, termClosed. destruct (Closed (term w)); reflexivity.
  - rewrite handleKey_run. reflexivity.
  - destruct (handleMouse_run m d w) as (ev & Hrun).
    rewrite Hrun. reflexivity.
Qed.

(** After any run of messages the dialog has the geometry of the last
    window-size message of the run, whatever came before or after it and
    whatever the terminal did; a run with no window-size message leaves the
    dialog as it was. *)
Theorem updates_geometry (msgs : list Msg) :
  forall (d : Dialog T) (w : World T),
    fst (fst (updates msgs d w))
    = match lastWindowSize msgs with
      | Some m => resized m d
      | None => d
      end.
Proof.
  induction msgs as [| msg msgs IH]; intros d w; [reflexivity |].
  rewrite updates_cons.
  pose proof (Update_dialog msg d w) as Hd.
  destruct (Update msg d w) as [[d1 c1] w1]. cbn [fst] in Hd.
  specialize (IH d1 w1).
  destruct (updates msgs d1 w1) as [[d2 cs] w2]. cbn [fst] in IH |- *.
  cbn [lastWindowSize]. rewrite IH, Hd.
  destruct (lastWindowSize msgs) as [m' |]; destruct msg; reflexivity.
Qed.

(** Key messages are forwarded one for one in the order received, a key with
    text as its text and any other as the key itself; they change neither
    the dialog nor the log of calls and return no command. *)
Theorem updates_keys_in_order (keys : list KeyPressMsg) :
  forall (d : Dialog T) (w : World T),
    updates (map KeyPress keys) d w
    = ((d, map (fun _ => None) keys),
       {| term := fold_left forwardKey keys (term w); calls := calls w |}).
Proof.
  induction keys as [| k keys IH]; intros d w.
  - cbn. unfold ret. rewrite world_eta. reflexivity.
  - cbn [map]. rewrite updates_cons. cbn [Update]. rewrite handleKey_run.
    rewrite IH. reflexivity.
Qed.

(** Once the terminal is closed a message of terminal output schedules no
    refresh: after Close on a dialog with no completion callback, Update on
    an output message returns no command and changes nothing, provided the
    terminal reports closed after its Close.  On a terminal that is not
    closed the message schedules the refresh. *)
Theorem no_refresh_after_Close (d : Dialog T) (w : World T) :
  (forall t : T, Closed (snd (terminal.Close t)) = true) ->
  onClose d = None ->
  Update OutputMsg d (snd (Close d w)) = ((d, None), snd (Close d w)) /\
  (Closed (term w) = false ->
   Update OutputMsg d w = ((d, Some tea.RefreshCmd), w)).
Proof.
  intros Hclosed Hno. split.
  - unfold Close, bind, ret, termClose. rewrite Hno.
    specialize (Hclosed (term w)).
    destruct (terminal.Close (term w)) as [err t]. cbn [snd] in *.
    cbn [Update]. unfold bind, ret, termClosed. cbn [term].
    rewrite Hclosed. reflexivity.
  - intros Hopen. cbn [Update]. unfold bind, ret, termClosed.
    rewrite Hopen. reflexivity.
Qed.

End Routing.

(** ** The cursor on the screen *)

Section ScreenCursor.

Context {T : Type} {TT : terminal.Terminal T}.

Import termdialog.

Lemma adjust_of_cursorScreen (d : Dialog T) (x y : Z) :
  GoInt.in_range x -> GoInt.in_range y ->
  adjust d (fst (cursorScreen d x y)) (snd (cursorScreen d x y)) = (x, y).
Proof.
  intros Hx Hy. unfold adjust, cursorScreen, headerHeight.
  destruct (Position d) as [row col]. cbn [fst snd].
  unfold GoInt.add, GoInt.sub.
  repeat match goal with
    | |- context [GoInt.wrap ?b] =>
        match b with
        | context [GoInt.wrap ?a] =>
            lazymatch a with
            | context [GoInt.wrap _] => fail
            | _ => let k := fresh "k" in destruct (wrap_multiple a) as [k ->]
            end
        end
    end.
  repeat match goal with
    | |- context [GoInt.wrap ?b] =>
        lazymatch b with
        | context [_ * 2 ^ 64] =>
            let K := multiples b in
            first [ replace b with (x + K * 2 ^ 64) by lia
                  | replace b with (y + K * 2 ^ 64) by lia ];
            rewrite wrap_shift
        end
    end.
  rewrite (wrap_in_range x Hx), (wrap_in_range y Hy). reflexivity.
Qed.

(** A mouse event at the screen cell where Cursor draws the cursor reaches
    the terminal at the cell of the terminal's own cursor, with the type of
    the event: the two translations agree on where the cursor is. *)
Theorem mouse_at_cursor_hits_cursor
  {color : Type} (secondary : color) (d : Dialog T) (w : World T)
  (c : tea.Cursor color) (msg : terminal.MouseMsg) :
  GoInt.in_range (fst (terminal.CursorPosition (term w))) ->
  GoInt.in_range (snd (terminal.CursorPosition (term w))) ->
  fst (Cursor secondary d w) = Some c ->
  terminal.X (router.mouseOf msg) = tea.X c ->
  terminal.Y (router.mouseOf msg) = tea.Y c ->
  exists ev : terminal.MouseMsg,
    calls (snd (handleMouse msg d w))
    = calls w ++ [terminal.CallSendMouse ev] /\
    router.mouseKind ev = router.mouseKind msg /\
    (terminal.X (router.mouseOf ev), terminal.Y (router.mouseOf ev))
    = terminal.CursorPosition (term w).
Proof.
  intros Hx Hy Hc HX HY.
  pose proof (Cursor_cursorScreen secondary d w) as Hcur.
  destruct (terminal.CursorPosition (term w)) as [x y]. cbn [fst snd] in *.
  rewrite Hcur in Hc. cbn [fst] in Hc.
  destruct ((x <? 0) || (y <? 0)); [discriminate |].
  injection Hc as <-. cbn [tea.X tea.Y] in HX, HY.
  pose proof (adjust_of_cursorScreen d x y Hx Hy) as Hadj.
  rewrite <- HX, <- HY in Hadj.
  destruct msg as [m | m | m | m]; cbn [router.mouseOf] in *;
    [exists (terminal.MouseClickMsg (adjustMouse d m))
    | exists (terminal.MouseReleaseMsg (adjustMouse d m))
    | exists (terminal.MouseWheelMsg (adjustMouse d m))
    | exists (terminal.MouseMotionMsg (adjustMouse d m))];
    (split; [reflexivity |]); (split; [reflexivity |]);
    cbn [router.mouseOf]; unfold adjustMouse; rewrite Hadj; reflexivity.
Qed.

(** The sizes handleResize stores for host sizes between [- 2 ^ 62] and
    [2 ^ 62]. *)
Lemma resized_sizes (msg : tea.WindowSizeMsg) (d : Dialog T) :
  - 2 ^ 62 <= tea.Width msg <= 2 ^ 62 ->
  - 2 ^ 62 <= tea.Height msg <= 2 ^ 62 ->
  40 <= width (resized msg d) <= 2 ^ 62 /\
  10 <= height (resized msg d) <= 2 ^ 62 /\
  termHeight (resized msg d) = height (resized msg d) - 2.
Proof.
  intros HW HH.
  pose proof (resized_floors msg d) as (Hw & Hh & Hth).
  assert (RW : GoInt.in_range (tea.Width msg))
    by (unfold GoInt.in_range, GoInt.min_int, GoInt.max_int; lia).
  assert (RH : GoInt.in_range (tea.Height msg))
    by (unfold GoInt.in_range, GoInt.min_int, GoInt.max_int; lia).
  pose proof (scale85_bounds _ RW) as [HsW HsW'].
  pose proof (scale85_bounds _ RH) as [HsH HsH'].
  assert (Hr : forall z, - 2 ^ 63 <= z <= 2 ^ 63 - 1 -> GoInt.wrap z = z)
    by (intros z Hz; apply wrap_in_range; exact Hz).
  split; [| split; [| lia]].
  - split; [exact Hw |].
    unfold resized, outerBound, GoInt.sub. cbn [width].
    destruct (tea.Width msg <? fullscreenWidthBreakpoint).
    + rewrite Hr by lia. lia.
    + rewrite (Hr (tea.Width msg - 6)) by lia.
      rewrite (Hr (Z.min _ _ - 2)) by lia. lia.
  - split; [exact Hh |].
    unfold resized, outerBound, GoInt.sub. cbn [height].
    destruct (tea.Width msg <? fullscreenWidthBreakpoint).
    + rewrite Hr by lia. lia.
    + rewrite (Hr (tea.Height msg - 4)) by lia.
      rewrite (Hr (Z.min _ _ - 2)) by lia. lia.
Qed.

(** After handleResize on a host of sizes between [- 2 ^ 62] and [2 ^ 62],
    whenever the terminal's cursor is on the grid it was resized to, Cursor
    draws it inside the dialog's border and below the header: from column
    col + 1 to col + width and from row row + 3 to row + height, where
    (row, col) is the dialog's position. *)
Theorem Cursor_inside_dialog
  {color : Type} (secondary : color)
  (msg : tea.WindowSizeMsg) (d : Dialog T) (w0 w : World T) (x y : Z) :
  - 2 ^ 62 <= tea.Width msg <= 2 ^ 62 ->
  - 2 ^ 62 <= tea.Height msg <= 2 ^ 62 ->
  let d' := fst (fst (handleResize msg d w0)) in
  terminal.CursorPosition (term w) = (x, y) ->
  0 <= x < width d' -> 0 <= y < termHeight d' ->
  exists c : tea.Cursor color,
    Cursor secondary d' w = (Some c, w) /\
    let '(row, col) := Position d' in
    col + 1 <= tea.X c <= col + width d' /\
    row + 3 <= tea.Y c <= row + height d'.
Proof.
  intros HW HH. cbv zeta. rewrite handleResize_dialog. intros Hxy Hx Hy.
  pose proof (resized_sizes msg d HW HH) as (Hw & Hh & Hth).
  rewrite Hth in Hy.
  pose proof (Cursor_cursorScreen secondary (resized msg d) w) as Hcur.
  rewrite Hxy in Hcur.
  replace ((x <? 0) || (y <? 0)) with false in Hcur
    by (symmetry; apply orb_false_iff; split; apply Z.ltb_ge; lia).
  eexists. split; [exact Hcur |]. cbn [tea.X tea.Y].
  unfold cursorScreen.
  assert (HP : Position (resized msg d) = PositionSpec (resized msg d)).
  { apply resized_noOverflow;
      unfold GoInt.in_range, GoInt.min_int, GoInt.max_int; lia. }
  rewrite HP. unfold PositionSpec.
  change (wHeight (resized msg d)) with (tea.Height msg).
  change (wWidth (resized msg d)) with (tea.Width msg).
  set (wd := width (resized msg d)) in *.
  set (ht := height (resized msg d)) in *.
  pose proof (Z.div_mod (tea.Width msg - (wd + 2)) 2 ltac:(lia)) as Hqc.
  pose proof (Z.mod_pos_bound (tea.Width msg - (wd + 2)) 2 ltac:(lia)) as Hrc.
  pose proof (Z.div_mod (tea.Height msg - (ht + 2)) 2 ltac:(lia)) as Hqr.
  pose proof (Z.mod_pos_bound (tea.Height msg - (ht + 2)) 2 ltac:(lia)) as Hrr.
  set (qc := (tea.Width msg - (wd + 2)) / 2) in *.
  set (qr := (tea.Height msg - (ht + 2)) / 2) in *.
  destruct (fullscreen (resized msg d)); cbn [fst snd];
    unfold GoInt.add, headerHeight;
    repeat match goal with
      | |- context [GoInt.wrap ?a] =>
          lazymatch a with
          | context [GoInt.wrap _] => fail
          | _ => rewrite (wrap_in_range a)
                   by (unfold GoInt.in_range, GoInt.min_int, GoInt.max_int; lia)
          end
      end;
    lia.
Qed.

End ScreenCursor.

(** ** Recognising the editor *)

(** ** Editors *)

Section Editors.

Import filepath.
Open Scope string_scope.
Open Scope Z_scope.

Lemma append_nil_r (s : string) : s ++ "" = s.
Proof. induction s as [| c s IH]; cbn; [reflexivity | rewrite IH; reflexivity]. Qed.

Lemma append_assoc (a b c : string) : (a ++ b) ++ c = a ++ (b ++ c).
Proof. induction a as [| x a IH]; cbn; [reflexivity | rewrite IH; reflexivity]. Qed.

Lemma eqb_empty_app (a b : string) :
  String.eqb b "" = false -> String.eqb (a ++ b) "" = false.
Proof. destruct a; [trivial | reflexivity]. Qed.

Lemma hasSlash_app (a b : string) :
  hasSlash (a ++ b) = hasSlash a || hasSlash b.
Proof.
  induction a as [| c a IH]; cbn; [reflexivity |].
  rewrite IH, orb_assoc. reflexivity.
Qed.

Lemma stripSlashes_app (a b : string) :
  String.eqb (stripSlashes b) "" = false ->
  stripSlashes (a ++ b) = a ++ stripSlashes b.
Proof.
  intros Hb. induction a as [| c a IH]; cbn; [reflexivity |].
  rewrite IH, (eqb_empty_app a _ Hb), andb_false_r. reflexivity.
Qed.

Lemma stripSlashes_no_slash (s : string) :
  hasSlash s = false -> stripSlashes s = s.
Proof.
  induction s as [| c s IH]; cbn; [reflexivity |].
  intros H. apply orb_false_iff in H as [Hc Hs].
  rewrite (IH Hs), Hc. reflexivity.
Qed.

Lemma lastElement_no_slash (s : string) :
  hasSlash s = false -> lastElement s = s.
Proof.
  destruct s as [| c s]; cbn; [reflexivity |].
  intros H. apply orb_false_iff in H as [Hc Hs]. rewrite Hs, Hc. reflexivity.
Qed.

Lemma lastElement_app (a b : string) :
  hasSlash b = true -> lastElement (a ++ b) = lastElement b.
Proof.
  intros Hb. induction a as [| c a IH]; cbn; [reflexivity |].
  rewrite hasSlash_app, Hb, orb_true_r. exact IH.
Qed.

Lemma lastElement_after_slash (a b : string) :
  lastElement (a ++ "/" ++ b) = lastElement b.
Proof.
  destruct (hasSlash b) eqn:Hb.
  - rewrite <- append_assoc. apply lastElement_app. exact Hb.
  - rewrite (lastElement_no_slash b Hb).
    induction a as [| c a IH]; cbn.
    + rewrite Hb. reflexivity.
    + rewrite hasSlash_app. cbn. rewrite orb_true_r. exact IH.
Qed.

(** Base looks at nothing before a slash that something other than slashes
    follows. *)
Lemma Base_after_slash (a b : string) :
  String.eqb (stripSlashes b) "" = false ->
  Base (a ++ "/" ++ b) = Base b.
Proof.
  intros Hb. unfold Base.
  assert (Hb' : String.eqb b "" = false) by (destruct b; [discriminate | reflexivity]).
  rewrite Hb'.
  replace (String.eqb (a ++ "/" ++ b) "") with false
    by (symmetry; apply eqb_empty_app; reflexivity).
  rewrite <- append_assoc, stripSlashes_app by exact Hb.
  rewrite append_assoc, lastElement_after_slash. reflexivity.
Qed.

Lemma Base_no_slash (s : string) :
  hasSlash s = false -> String.eqb s "" = false -> Base s = s.
Proof.
  intros Hs Hne. unfold Base.
  rewrite Hne, (stripSlashes_no_slash s Hs), (lastElement_no_slash s Hs), Hne.
  reflexivity.
Qed.


Import strings.
Import tuieditor.

Lemma Index_ge (s sub : string) : -1 <= Index s sub.
Proof.
  induction s as [| c s IH]; cbn [Index].
  - destruct (prefix sub ""); lia.
  - destruct (prefix sub (String c s)); [lia |].
    destruct (Index s sub =? -1) eqn:E; lia.
Qed.

Lemma prefix_space (c : ascii) (s : string) :
  prefix " " (String c s) = Ascii.eqb " " c.
Proof.
  change (prefix " " (String c s))
    with (if ascii_dec " " c then prefix "" s else false).
  destruct (ascii_dec " " c) as [E | E].
  - subst c. rewrite Ascii.eqb_refl. destruct s; reflexivity.
  - symmetry. apply Ascii.eqb_neq. exact E.
Qed.

Lemma Index_space_cons (c : ascii) (s : string) :
  Index (String c s) " "
  = if Ascii.eqb " " c then 0
    else if Index s " " =? -1 then -1 else Index s " " + 1.
Proof. cbn [Index]. rewrite prefix_space. reflexivity. Qed.

(** A first space is found where it is. *)
Lemma Index_space_app (name rest : string) :
  Index name " " = -1 ->
  Index (name ++ " " ++ rest) " " = Z.of_nat (String.length name).
Proof.
  induction name as [| c name IH]; intros Hno.
  - change (("" ++ " " ++ rest)%string) with (String " " rest).
    rewrite Index_space_cons. reflexivity.
  - rewrite Index_space_cons in Hno.
    change ((String c name ++ " " ++ rest)%string)
      with (String c (name ++ " " ++ rest)).
    rewrite Index_space_cons.
    destruct (Ascii.eqb " " c); [discriminate |].
    pose proof (Index_ge name " ").
    destruct (Index name " " =? -1) eqn:E; [| lia].
    apply Z.eqb_eq in E. rewrite (IH E).
    cbn [String.length].
    destruct (Z.of_nat (String.length name) =? -1) eqn:E'; lia.
Qed.

Lemma sliceTo_app (name rest : string) :
  sliceTo (name ++ rest) (Z.of_nat (String.length name)) = name.
Proof.
  unfold sliceTo. rewrite Nat2Z.id.
  induction name as [| c name IH]; cbn.
  - destruct rest; reflexivity.
  - rewrite IH. reflexivity.
Qed.

(** Where Index finds a space, the string is what is before it, the space
    and a rest. *)
Lemma Index_space_split (b : string) :
  Index b " " <> -1 ->
  exists rest : string, b = (sliceTo b (Index b " ") ++ " " ++ rest)%string.
Proof.
  induction b as [| c b IH]; intros Hi.
  - exfalso. apply Hi. reflexivity.
  - rewrite Index_space_cons in *.
    destruct (Ascii.eqb " " c) eqn:Ec.
    + apply Ascii.eqb_eq in Ec. subst c. exists b. reflexivity.
    + pose proof (Index_ge b " ").
      destruct (Index b " " =? -1) eqn:E; [exfalso; apply Hi; reflexivity |].
      apply Z.eqb_neq in E. destruct (IH E) as [rest Hrest].
      exists rest. unfold sliceTo in *.
      replace (Z.to_nat (Index b " " + 1)) with (S (Z.to_nat (Index b " "))) by lia.
      cbn [substring]. change (String c b = String c (substring 0 (Z.to_nat (Index b " ")) b ++ " " ++ rest)).
      f_equal. exact Hrest.
Qed.

Lemma Contains_In (l : list string) (v : string) :
  slices.Contains l v = true <-> In v l.
Proof.
  unfold slices.Contains. rewrite existsb_exists. split.
  - intros (x & Hin & Heq). apply String.eqb_eq in Heq. subst. exact Hin.
  - intros Hin. exists v. split; [exact Hin | apply String.eqb_refl].
Qed.

(** The names of the list hold no slash and no space, and none is empty. *)
Lemma knownTUIEditors_plain (name : string) :
  In name knownTUIEditors ->
  hasSlash name = false /\ Index name " " = -1 /\ String.eqb name "" = false.
Proof.
  intros Hin.
  assert (H : forallb (fun n => negb (hasSlash n) && (Index n " " =? -1)
                               && negb (String.eqb n ""))
                knownTUIEditors = true) by reflexivity.
  rewrite forallb_forall in H. specialize (H name Hin).
  apply andb_true_iff in H as [H H3]. apply andb_true_iff in H as [H1 H2].
  apply negb_true_iff in H1, H3. apply Z.eqb_eq in H2. auto.
Qed.

Lemma IsTUIEditor_plain (name : string) :
  In name knownTUIEditors -> IsTUIEditor name = true.
Proof.
  intros Hin. destruct (knownTUIEditors_plain name Hin) as (Hs & Hi & Hne).
  unfold IsTUIEditor. rewrite (Base_no_slash name Hs Hne), Hi. cbn [Z.eqb negb].
  apply Contains_In. exact Hin.
Qed.

Lemma IsTUIEditor_args (name args : string) :
  In name knownTUIEditors -> hasSlash args = false ->
  IsTUIEditor (name ++ " " ++ args) = true.
Proof.
  intros Hin Ha. destruct (knownTUIEditors_plain name Hin) as (Hs & Hi & Hne).
  unfold IsTUIEditor.
  rewrite Base_no_slash.
  - rewrite (Index_space_app name args Hi).
    replace (Z.of_nat (String.length name) =? -1) with false
      by (symmetry; apply Z.eqb_neq; lia).
    cbn [negb]. rewrite sliceTo_app. apply Contains_In. exact Hin.
  - rewrite hasSlash_app, Hs. cbn. exact Ha.
  - destruct name; [discriminate | reflexivity].
Qed.

Lemma IsTUIEditor_after_slash (a b : string) :
  String.eqb (stripSlashes b) "" = false ->
  IsTUIEditor (a ++ "/" ++ b) = IsTUIEditor b.
Proof.
  intros Hb. unfold IsTUIEditor. rewrite (Base_after_slash a b Hb). reflexivity.
Qed.

Lemma stripSlashes_nonempty (s t : string) :
  hasSlash t = false -> String.eqb s "" = false -> hasSlash s = false ->
  String.eqb (stripSlashes (s ++ t)) "" = false.
Proof.
  intros Ht Hne Hs. rewrite stripSlashes_no_slash.
  - destruct s; [discriminate | reflexivity].
  - rewrite hasSlash_app, Hs, Ht. reflexivity.
Qed.

(** Every editor of the list is recognised: alone, after a directory, and
    with arguments that hold no slash. *)
Theorem IsTUIEditor_known (dir name args : string) :
  In name knownTUIEditors -> hasSlash args = false ->
  IsTUIEditor name = true /\
  IsTUIEditor (dir ++ "/" ++ name) = true /\
  IsTUIEditor (name ++ " " ++ args) = true /\
  IsTUIEditor (dir ++ "/" ++ name ++ " " ++ args) = true.
Proof.
  intros Hin Ha. destruct (knownTUIEditors_plain name Hin) as (Hs & Hi & Hne).
  split; [apply IsTUIEditor_plain; exact Hin |]. split; [| split].
  - rewrite IsTUIEditor_after_slash.
    + apply IsTUIEditor_plain. exact Hin.
    + rewrite <- (append_nil_r name).
      apply stripSlashes_nonempty; [reflexivity | exact Hne | exact Hs].
  - apply IsTUIEditor_args; assumption.
  - rewrite IsTUIEditor_after_slash.
    + apply IsTUIEditor_args; assumption.
    + apply stripSlashes_nonempty; [| exact Hne | exact Hs].
      cbn. exact Ha.
Qed.

(** IsTUIEditor reads the last element of the path only: what stands before
    a slash is not looked at, the name of the editor included when an
    argument after it holds a slash. *)
Theorem IsTUIEditor_last_element (a b : string) :
  String.eqb (stripSlashes b) "" = false ->
  IsTUIEditor (a ++ "/" ++ b) = IsTUIEditor b.
Proof. intros Hb. unfold IsTUIEditor. rewrite (Base_after_slash a b Hb). reflexivity. Qed.

(** IsTUIEditor holds of nothing but the editors of the list: when it is
    true, the last element of the path is a name of the list, alone or
    followed by a space and arguments.  The empty command is not an
    editor. *)
Theorem IsTUIEditor_sound (editor : string) :
  IsTUIEditor editor = true ->
  editor <> "" /\
  exists name : string,
    In name knownTUIEditors /\
    (Base editor = name \/
     exists rest : string, Base editor = name ++ " " ++ rest).
Proof.
  intros H. split; [intros ->; discriminate |].
  unfold IsTUIEditor in H.
  destruct (Index (Base editor) " " =? -1) eqn:E; cbn [negb] in H.
  - exists (Base editor). split; [apply Contains_In; exact H | left; reflexivity].
  - apply Z.eqb_neq in E.
    exists (sliceTo (Base editor) (Index (Base editor) " ")).
    split; [apply Contains_In; exact H |]. right.
    apply Index_space_split. exact E.
Qed.

End Editors.

(** ** The command of the editor, and the colours of the theme *)

Section EditorCommand.

Import strings.
Import tuieditor.
Open Scope string_scope.
Open Scope Z_scope.

Variable unicodeFields : string -> list string.

Lemma asciiSpace_ascii (c : ascii) :
  asciiSpace c = true -> (nat_of_ascii c <? 128)%nat = true.
Proof.
  unfold asciiSpace. intros H. apply Nat.ltb_lt.
  apply orb_true_iff in H as [H | H].
  - apply andb_true_iff in H as [_ H]. apply Nat.leb_le in H. lia.
  - apply Nat.eqb_eq in H. lia.
Qed.

Lemma fieldsFrom_spaces (s : string) :
  forallb asciiSpace (list_ascii_of_string s) = true ->
  fieldsFrom s None = [] /\ isASCII s = true.
Proof.
  unfold isASCII. induction s as [| c s IH];
    cbn [forallb list_ascii_of_string fieldsFrom]; [split; reflexivity |].
  intros H. apply andb_true_iff in H as [Hc Hs].
  destruct (IH Hs) as [IH1 IH2].
  rewrite Hc, IH1, IH2, (asciiSpace_ascii c Hc). split; reflexivity.
Qed.

Lemma fieldsFrom_field (s f : string) : fieldsFrom s (Some f) <> [].
Proof.
  revert f. induction s as [| c s IH]; intros f; cbn [fieldsFrom].
  - discriminate.
  - destruct (asciiSpace c); [discriminate | apply IH].
Qed.

Lemma fieldsFrom_not_spaces (s : string) :
  forallb asciiSpace (list_ascii_of_string s) = false ->
  fieldsFrom s None <> [].
Proof.
  induction s as [| c s IH]; cbn [forallb list_ascii_of_string fieldsFrom];
    [discriminate |].
  destruct (asciiSpace c); cbn [andb]; [exact IH |].
  intros _. apply fieldsFrom_field.
Qed.

(** The command of NewDialog: with no editor configured it is nvim on the
    file; with an editor of ASCII bytes that is not empty, NewDialog panics
    on [parts[0]] exactly when the editor is all white space; whenever
    there is a command, its name is the first field of the editor and the
    file path is its last argument, in one piece whatever bytes it holds. *)
Theorem editorCommand_cases (FilePath : string) :
  editorCommand unicodeFields "" FilePath = Some ("nvim", [FilePath]) /\
  (forall Editor : string,
      Editor <> "" -> isASCII Editor = true ->
      (editorCommand unicodeFields Editor FilePath = None
       <-> forallb asciiSpace (list_ascii_of_string Editor) = true)) /\
  (forall (Editor cmdName : string) (args : list string),
      editorCommand unicodeFields Editor FilePath = Some (cmdName, args) ->
      exists parts : list string,
        strings.Fields unicodeFields (if String.eqb Editor "" then "nvim" else Editor)
        = cmdName :: parts /\
        args = (parts ++ [FilePath])%list).
Proof.
  split; [reflexivity |]. split.
  - intros Editor Hne Hascii. unfold editorCommand, Fields.
    replace (String.eqb Editor "") with false
      by (symmetry; apply String.eqb_neq; exact Hne).
    rewrite Hascii. split.
    + intros Hnone.
      destruct (forallb asciiSpace (list_ascii_of_string Editor)) eqn:Hsp;
        [reflexivity |].
      pose proof (fieldsFrom_not_spaces Editor Hsp) as Hf.
      destruct (fieldsFrom Editor None); [contradiction | discriminate].
    + intros Hsp. destruct (fieldsFrom_spaces Editor Hsp) as [-> _].
      reflexivity.
  - intros Editor cmdName args. unfold editorCommand.
    destruct (Fields unicodeFields _) as [| c rest]; [discriminate |].
    intros [= <- <-]. exists rest. split; reflexivity.
Qed.

End EditorCommand.

Section Colours.

Import ghdash.
Open Scope N_scope.

Lemma x02_byte (v : N) :
  v < 256 ->
  exists hi lo : ascii,
    fmt.x02 v = String hi (String lo EmptyString) /\ hexByte hi lo = Some v.
Proof.
  intros Hv.
  assert (H : forallb
                (fun k => match fmt.x02 (N.of_nat k) with
                          | String hi (String lo EmptyString) =>
                              match hexByte hi lo with
                              | Some u => u =? N.of_nat k
                              | None => false
                              end
                          | _ => false
                          end)
                (seq 0 256) = true) by (vm_compute; reflexivity).
  rewrite forallb_forall in H. specialize (H (N.to_nat v)).
  rewrite N2Nat.id in H.
  assert (Hin : In (N.to_nat v) (seq 0 256)) by (apply in_seq; lia).
  specialize (H Hin).
  destruct (fmt.x02 v) as [| hi [| lo [| ? ?]]]; try discriminate.
  destruct (hexByte hi lo) as [u |] eqn:E; [| discriminate].
  apply N.eqb_eq in H. subst u. exists hi, lo. split; [reflexivity | exact E].
Qed.

(** For a colour whose channels are within 16 bits, as RGBA promises,
    colorToHex is '#' and six lower-case hexadecimal digits, and reading it
    back gives the high byte of each channel: the low bytes are dropped and
    nothing else is lost. *)
Theorem colorToHex_roundtrip (c : RGBA) :
  R c < 2 ^ 16 -> G c < 2 ^ 16 -> B c < 2 ^ 16 ->
  String.length (colorToHex c) = 7%nat /\
  parseHex (colorToHex c) = Some (R c / 256, G c / 256, B c / 256).
Proof.
  intros HR HG HB. unfold colorToHex.
  rewrite !N.shiftr_div_pow2. change (2 ^ 8) with 256.
  destruct (x02_byte (R c / 256)) as (r1 & r2 & -> & Hr);
    [apply N.Div0.div_lt_upper_bound; lia |].
  destruct (x02_byte (G c / 256)) as (g1 & g2 & -> & Hg);
    [apply N.Div0.div_lt_upper_bound; lia |].
  destruct (x02_byte (B c / 256)) as (b1 & b2 & -> & Hb);
    [apply N.Div0.div_lt_upper_bound; lia |].
  split; [reflexivity |].
  cbn [append parseHex]. rewrite Hr, Hg, Hb. reflexivity.
Qed.

End Colours.

(** ** What a dialog is constructed with *)

Section Constructed.

Context {T : Type} {TT : terminal.Terminal T} {TI : router.TerminalInput T}.

Import termdialog.
Import router.

Lemma updates_fields (msgs : list Msg) :
  forall (d : Dialog T) (w : World T),
    let d' := fst (fst (updates msgs d w)) in
    id d' = id d /\ title d' = title d /\
    loadingMsg d' = loadingMsg d /\ onClose d' = onClose d.
Proof.
  induction msgs as [| msg msgs IH]; intros d w; [repeat split |].
  cbv zeta. rewrite updates_cons.
  pose proof (Update_dialog msg d w) as Hd.
  destruct (Update msg d w) as [[d1 c1] w1]. cbn [fst] in Hd.
  specialize (IH d1 w1). cbv zeta in IH.
  destruct (updates msgs d1 w1) as [[d2 cs] w2]. cbn [fst] in IH |- *.
  destruct IH as (H1 & H2 & H3 & H4). rewrite H1, H2, H3, H4, Hd.
  destruct msg; repeat split.
Qed.

(** Through any run of messages a dialog keeps the identifier, the title and
    the completion callback of its configuration, and its loading message
    is never empty: it is the configured one, or "Starting..." when none was
    configured. *)
Theorem constructed_fields_kept
  (cfg : Config T) (msgs : list Msg) (w : World T) :
  let d := fst (fst (updates msgs (New cfg) w)) in
  id d = ID cfg /\ title d = Title cfg /\ onClose d = OnClose cfg /\
  loadingMsg d <> EmptyString /\
  loadingMsg d = if String.eqb (LoadingMsg cfg) EmptyString
                 then "Starting..."%string else LoadingMsg cfg.
Proof.
  cbv zeta. pose proof (updates_fields msgs (New cfg) w) as H. cbv zeta in H.
  destruct H as (H1 & H2 & H3 & H4). rewrite H1, H2, H3, H4.
  cbn [id title onClose loadingMsg New].
  repeat split.
  destruct (String.eqb (LoadingMsg cfg) EmptyString) eqn:E.
  - discriminate.
  - apply String.eqb_neq. exact E.
Qed.

End Constructed.

(** ** The further properties at work on the scripted terminals *)

Section MoreInstances.

Import termdialog.
Import router.

Lemma in_range_small (z : Z) : - 2 ^ 62 <= z <= 2 ^ 62 -> GoInt.in_range z.
Proof. unfold GoInt.in_range, GoInt.min_int, GoInt.max_int. lia. Qed.

Lemma windowed_margins_witness :
  GoInt.in_range 200 /\ GoInt.in_range 60 /\ 120 <= 200 /\ 16 <= 60 /\
  (3 <= 15 /\ 15 + (168 + 2) + 3 <= 200 /\ 2 <= 4 /\ 4 + (49 + 2) + 2 <= 60).
Proof.
  assert (H200 : GoInt.in_range 200) by (apply in_range_small; lia).
  assert (H60 : GoInt.in_range 60) by (apply in_range_small; lia).
  assert (Ha : 120 <= 200) by lia.
  assert (Hb : 16 <= 60) by lia.
  split; [exact H200 |]. split; [exact H60 |]. split; [exact Ha |].
  split; [exact Hb |].
  exact (windowed_margins (tea.mkWindowSizeMsg 200 60) scripted.dialog
           (scripted.world (scripted.fresh 0 0 None)) H200 H60 Ha Hb).
Defined.

Lemma fullscreen_fills_host_witness :
  GoInt.in_range 30 /\ 42 <= 100 < 120 /\ 12 <= 30 /\
  fullscreen (fst (fst (handleResize (tea.mkWindowSizeMsg 100 30) scripted.dialog
                          (scripted.world (scripted.fresh 0 0 None))))) = true /\
  Position (fst (fst (handleResize (tea.mkWindowSizeMsg 100 30) scripted.dialog
                        (scripted.world (scripted.fresh 0 0 None))))) = (0, 0) /\
  98 + 2 = 100 /\ 28 + 2 = 30.
Proof.
  assert (H30 : GoInt.in_range 30) by (apply in_range_small; lia).
  assert (Ha : 42 <= 100 < 120) by lia.
  assert (Hb : 12 <= 30) by lia.
  split; [exact H30 |]. split; [exact Ha |]. split; [exact Hb |].
  exact (fullscreen_fills_host (tea.mkWindowSizeMsg 100 30) scripted.dialog
           (scripted.world (scripted.fresh 0 0 None)) H30 Ha Hb).
Defined.

Lemma narrow_host_overflows_witness :
  GoInt.min_int + 2 <= 30 < 42 /\
  fullscreen (fst (fst (handleResize (tea.mkWindowSizeMsg 30 20) scripted.dialog
                          (scripted.world (scripted.fresh 0 0 None))))) = true /\
  40 + 2 = 42 /\ 30 < 40 + 2.
Proof.
  assert (Ha : GoInt.min_int + 2 <= 30 < 42) by (unfold GoInt.min_int; lia).
  split; [exact Ha |].
  exact (narrow_host_overflows (tea.mkWindowSizeMsg 30 20) scripted.dialog
           (scripted.world (scripted.fresh 0 0 None)) Ha).
Defined.

Lemma windowed_size_85_percent_witness :
  (120 <= 200 <= 4096 /\ 16 <= 60 <= 4096 /\ 27 <= 60 /\
   width (fst (fst (handleResize (tea.mkWindowSizeMsg 200 60) scripted.dialog
                      (scripted.world (scripted.fresh 0 0 None)))))
   = 85 * 200 / 100 - 2 /\
   height (fst (fst (handleResize (tea.mkWindowSizeMsg 200 60) scripted.dialog
                       (scripted.world (scripted.fresh 0 0 None)))))
   = 85 * 60 / 100 - 2) /\
  (120 <= 120 <= 4096 /\ 16 <= 20 <= 4096 /\ 20 <= 26 /\
   height (fst (fst (handleResize (tea.mkWindowSizeMsg 120 20) scripted.dialog
                       (scripted.world (scripted.fresh 0 0 None)))))
   = 20 - 6).
Proof.
  assert (Ha : 120 <= 200 <= 4096) by lia.
  assert (Hb : 16 <= 60 <= 4096) by lia.
  assert (Hc : 27 <= 60) by lia.
  assert (Hd : 120 <= 120 <= 4096) by lia.
  assert (He : 16 <= 20 <= 4096) by lia.
  assert (Hf : 20 <= 26) by lia.
  split.
  - split; [exact Ha |]. split; [exact Hb |]. split; [exact Hc |].
    pose proof (windowed_size_85_percent (tea.mkWindowSizeMsg 200 60)
                  scripted.dialog (scripted.world (scripted.fresh 0 0 None))
                  Ha Hb) as (Hw & Hh & _).
    split; [exact Hw | exact (Hh Hc)].
  - split; [exact Hd |]. split; [exact He |]. split; [exact Hf |].
    pose proof (windowed_size_85_percent (tea.mkWindowSizeMsg 120 20)
                  scripted.dialog (scripted.world (scripted.fresh 0 0 None))
                  Hd He) as (_ & _ & Hh).
    exact (Hh Hf).
Defined.

Lemma scale85_defined_witness :
  GoInt.in_range (-200) /\
  Float64.trunc (Float64.mul (Float64.of_int (-200)) Float64.c0_85)
  = Some (scale85 (-200)) /\
  GoInt.in_range (scale85 (-200)) /\
  Z.abs (scale85 (-200)) <= Z.abs (-200) /\
  0 <= scale85 (-200) * -200.
Proof.
  assert (H : GoInt.in_range (-200)) by (apply in_range_small; lia).
  split; [exact H |]. exact (scale85_defined (-200) H).
Defined.

Lemma Position_exact_after_resize_witness :
  GoInt.in_range 200 /\ GoInt.in_range (-3) /\ - 2 ^ 62 <= -3 /\
  Position (fst (fst (handleResize (tea.mkWindowSizeMsg 200 (-3)) scripted.dialog
                        (scripted.world (scripted.fresh 0 0 None)))))
  = PositionSpec
      (fst (fst (handleResize (tea.mkWindowSizeMsg 200 (-3)) scripted.dialog
                   (scripted.world (scripted.fresh 0 0 None))))).
Proof.
  assert (H200 : GoInt.in_range 200) by (apply in_range_small; lia).
  assert (H3 : GoInt.in_range (-3)) by (apply in_range_small; lia).
  assert (Hlow : - 2 ^ 62 <= -3) by lia.
  split; [exact H200 |]. split; [exact H3 |]. split; [exact Hlow |].
  exact (Position_exact_after_resize (tea.mkWindowSizeMsg 200 (-3))
           scripted.dialog (scripted.world (scripted.fresh 0 0 None))
           H200 H3 Hlow).
Defined.

Lemma Update_keeps_dialog_witness :
  isWindowSizeMsg (KeyPress console.keyA) = false /\
  (let '(d', _, w') :=
     Update (KeyPress console.keyA) console.dialog (console.world console.fresh) in
   d' = console.dialog /\
   calls w' = calls (console.world console.fresh)).
Proof.
  split; [reflexivity |].
  exact (Update_keeps_dialog (KeyPress console.keyA) console.dialog
           (console.world console.fresh) eq_refl).
Defined.

Lemma console_Closed_after_Close (t : console.Console) :
  Closed (snd (terminal.Close t)) = true.
Proof. reflexivity. Qed.

Lemma no_refresh_after_Close_witness :
  (forall t : console.Console, Closed (snd (terminal.Close t)) = true) /\
  onClose console.dialog = None /\
  Update OutputMsg console.dialog
    (snd (Close console.dialog (console.world console.fresh)))
  = ((console.dialog, None),
     snd (Close console.dialog (console.world console.fresh))) /\
  (Closed (term (console.world console.fresh)) = false ->
   Update OutputMsg console.dialog (console.world console.fresh)
   = ((console.dialog, Some tea.RefreshCmd), console.world console.fresh)).
Proof.
  split; [exact console_Closed_after_Close |]. split; [reflexivity |].
  exact (no_refresh_after_Close console.dialog (console.world console.fresh)
           console_Closed_after_Close eq_refl).
Defined.

(** The cursor of the terminal at (5, 7), on a 200 x 60 host: it is drawn at
    (21, 14), and a click there reaches the terminal at (5, 7). *)
Lemma mouse_at_cursor_hits_cursor_witness :
  GoInt.in_range 5 /\ GoInt.in_range 7 /\
  fst (Cursor tt (resized (tea.mkWindowSizeMsg 200 60) console.dialog)
         (console.world (console.withCursor 5 7)))
  = Some {| tea.X := 21; tea.Y := 14; tea.Color := tt;
            tea.Shape := tea.CursorBlock; tea.Blink := true |} /\
  exists ev : terminal.MouseMsg,
    calls (snd (handleMouse
                  (terminal.MouseClickMsg
                     {| terminal.X := 21; terminal.Y := 14;
                        terminal.Button := 1; terminal.Mod := 0 |})
                  (resized (tea.mkWindowSizeMsg 200 60) console.dialog)
                  (console.world (console.withCursor 5 7))))
    = [terminal.CallSendMouse ev] /\
    mouseKind ev = 0%nat /\
    (terminal.X (mouseOf ev), terminal.Y (mouseOf ev)) = (5, 7).
Proof.
  assert (H5 : GoInt.in_range 5) by (apply in_range_small; lia).
  assert (H7 : GoInt.in_range 7) by (apply in_range_small; lia).
  assert (Hc : fst (Cursor tt (resized (tea.mkWindowSizeMsg 200 60) console.dialog)
                      (console.world (console.withCursor 5 7)))
               = Some {| tea.X := 21; tea.Y := 14; tea.Color := tt;
                         tea.Shape := tea.CursorBlock; tea.Blink := true |})
    by (vm_compute; reflexivity).
  split; [exact H5 |]. split; [exact H7 |]. split; [exact Hc |].
  exact (mouse_at_cursor_hits_cursor tt
           (resized (tea.mkWindowSizeMsg 200 60) console.dialog)
           (console.world (console.withCursor 5 7))
           {| tea.X := 21; tea.Y := 14; tea.Color := tt;
              tea.Shape := tea.CursorBlock; tea.Blink := true |}
           (terminal.MouseClickMsg
              {| terminal.X := 21; terminal.Y := 14;
                 terminal.Button := 1; terminal.Mod := 0 |})
           H5 H7 Hc eq_refl eq_refl).
Defined.

Lemma Cursor_inside_dialog_witness :
  - 2 ^ 62 <= 200 <= 2 ^ 62 /\ - 2 ^ 62 <= 60 <= 2 ^ 62 /\
  terminal.CursorPosition (term (console.world (console.withCursor 5 7))) = (5, 7) /\
  0 <= 5 < 168 /\ 0 <= 7 < 47 /\
  exists c : tea.Cursor unit,
    Cursor tt (fst (fst (handleResize (tea.mkWindowSizeMsg 200 60) console.dialog
                           (console.world console.fresh))))
      (console.world (console.withCursor 5 7))
    = (Some c, console.world (console.withCursor 5 7)) /\
    15 + 1 <= tea.X c <= 15 + 168 /\
    4 + 3 <= tea.Y c <= 4 + 49.
Proof.
  assert (Ha : - 2 ^ 62 <= 200 <= 2 ^ 62) by lia.
  assert (Hb : - 2 ^ 62 <= 60 <= 2 ^ 62) by lia.
  assert (Hx : 0 <= 5 < 168) by lia.
  assert (Hy : 0 <= 7 < 47) by lia.
  split; [exact Ha |]. split; [exact Hb |]. split; [reflexivity |].
  split; [exact Hx |]. split; [exact Hy |].
  exact (Cursor_inside_dialog tt (tea.mkWindowSizeMsg 200 60) console.dialog
           (console.world console.fresh)
           (console.world (console.withCursor 5 7)) 5 7 Ha Hb eq_refl Hx Hy).
Defined.

End MoreInstances.

Section EditorInstances.

Import filepath.
Import strings.
Import tuieditor.
Import ghdash.

Open Scope string_scope.

Lemma IsTUIEditor_known_witness :
  In "nvim" knownTUIEditors /\ hasSlash "-u NONE" = false /\
  IsTUIEditor "nvim" = true /\
  IsTUIEditor "/usr/bin/nvim" = true /\
  IsTUIEditor "nvim -u NONE" = true /\
  IsTUIEditor "/usr/bin/nvim -u NONE" = true.
Proof.
  assert (Hin : In "nvim" knownTUIEditors) by (cbn; tauto).
  split; [exact Hin |]. split; [reflexivity |].
  exact (IsTUIEditor_known "/usr/bin" "nvim" "-u NONE" Hin eq_refl).
Defined.

(** A path among the arguments hides the editor: of "vim -u /vimrc" only
    "vimrc" is looked at. *)
Lemma IsTUIEditor_last_element_witness :
  String.eqb (stripSlashes "vimrc") "" = false /\
  IsTUIEditor "vim -u /vimrc" = IsTUIEditor "vimrc" /\
  IsTUIEditor "vimrc" = false.
Proof.
  split; [reflexivity |]. split; [| reflexivity].
  exact (IsTUIEditor_last_element "vim -u " "vimrc" eq_refl).
Defined.

Lemma IsTUIEditor_sound_witness :
  IsTUIEditor "/usr/bin/vim -u NONE" = true /\
  "/usr/bin/vim -u NONE" <> "" /\
  exists name : string,
    In name knownTUIEditors /\
    (Base "/usr/bin/vim -u NONE" = name \/
     exists rest : string, Base "/usr/bin/vim -u NONE" = name ++ " " ++ rest).
Proof.
  split; [reflexivity |].
  exact (IsTUIEditor_sound "/usr/bin/vim -u NONE" eq_refl).
Defined.

(** An editor setting of one space panics; "code --wait" runs code with the
    arguments --wait and the file. *)
Lemma editorCommand_cases_witness :
  editorCommand (fun _ => []) " " "main.go" = None /\
  exists parts : list string,
    Fields (fun _ => []) "code --wait" = "code" :: parts /\
    ["--wait"; "main.go"] = (parts ++ ["main.go"])%list.
Proof.
  destruct (editorCommand_cases (fun _ => []) "main.go") as (_ & Hnone & Hsome).
  split.
  - apply (Hnone " "); [discriminate | reflexivity | reflexivity].
  - exact (Hsome "code --wait" "code" ["--wait"; "main.go"] eq_refl).
Defined.

Lemma colorToHex_roundtrip_witness :
  (65535 < 2 ^ 16 /\ 32896 < 2 ^ 16 /\ 0 < 2 ^ 16)%N /\
  String.length (colorToHex (mkRGBA 65535 32896 0 65535)) = 7%nat /\
  parseHex (colorToHex (mkRGBA 65535 32896 0 65535))
  = Some (255, 128, 0)%N.
Proof.
  assert (HR : (65535 < 2 ^ 16)%N) by reflexivity.
  assert (HG : (32896 < 2 ^ 16)%N) by reflexivity.
  assert (HB : (0 < 2 ^ 16)%N) by reflexivity.
  split; [repeat split; assumption |].
  exact (colorToHex_roundtrip (mkRGBA 65535 32896 0 65535) HR HG HB).
Defined.

End EditorInstances.
